(** * transitdb: fare offers, the PostgreSQL store and the HTTP handlers

    A shallow embedding of the Go packages [transitdb] (offer.go, quote.go,
    store.go, handler.go) and [transitdb/pg] (pg.go) together with the SQL
    text the store sends to PostgreSQL.

    - Go values: [int] and [time.Time] are integers ([Z]); a [time.Time] is
      counted from Go's zero instant, so [IsZero t] is [t = 0].  Strings are
      [string]; a Go [map] is a [gmap]; a slice is a [list].  A time carries
      no zone here: every [time.Time] is read in UTC and so is the database
      session, and a DATE or TIMESTAMP column holds the instant it was sent.
      The parameters of a statement are values the database takes in: text
      in its encoding, UTF-8, and times in the range of the column types.
    - The database is a record of its two tables.  A statement is a function
      on that record written after the SQL text, clause by clause: [JOIN] is a
      nested comprehension, [GROUP BY] collects the distinct keys, [MIN] is an
      aggregate over the rows of a group, NULL is [None] and a comparison with
      NULL rejects the row.  [ORDER BY cost ASC] leaves rows of equal cost in
      any order: the functions [order_by] and, with it, [ListQuotes] and
      [CheapestPerRoute] are one execution, and the relations [sorts_by] and
      [may_return] (in the vocabulary) range over all of them.
    - Effects are explicit: every store operation takes and returns the world
      (tables, sequence, the process-wide airport cache, the statements sent
      so far).  The handlers are written against the [Store] interface, as in
      the source, and return the HTTP response, what was written to stderr and
      the world. *)

From Stdlib Require Import ZArith String Ascii List Sorting.Sorted Permutation.
From Stdlib Require QArith.
From stdpp Require Import base option list gmap strings pretty sorting.

Local Open Scope string_scope.
Local Open Scope list_scope.
Local Open Scope Z_scope.

(** ** Go's built-in pieces *)

(** The [error] values the code builds or inspects: [errors.New] and
    [fmt.Errorf] strings, and lib/pq's [*pq.Error] with the three fields the
    store reads ([Code.Name()], [Column], [Message]). *)
Inductive error : Type :=
| errorString (msg : string)
| pqError (code_name column message : string).

Definition Error (e : error) : string :=
  match e with
  | errorString msg => msg
  | pqError _ _ message => "pq: " +:+ message
  end.

Inductive result (A : Type) : Type :=
| Ok (a : A)
| Err (e : error).
Arguments Ok {A} a.
Arguments Err {A} e.

Definition Time := Z.
Definition IsZero (t : Time) : bool := t =? 0.

(** The double quote and the line feed, which a string literal cannot hold. *)
Definition dq : string := String "034"%char EmptyString.
Definition nl : string := String "010"%char EmptyString.

(** [strconv.Quote], which [%q] prints with: a double-quoted Go literal.  The
    ASCII range is as in Go; bytes from 128 on are kept (Go keeps printable
    runes and escapes the others). *)
Definition hexdigit (n : N) : ascii :=
  ascii_of_N (if (n <? 10)%N then 48 + n else 87 + n)%N.

Definition quote_byte (c : ascii) : string :=
  let n := N_of_ascii c in
  if (n =? 34)%N then "\" +:+ dq
  else if (n =? 92)%N then "\\"
  else if (n =? 7)%N then "\a"
  else if (n =? 8)%N then "\b"
  else if (n =? 12)%N then "\f"
  else if (n =? 10)%N then "\n"
  else if (n =? 13)%N then "\r"
  else if (n =? 9)%N then "\t"
  else if (n =? 11)%N then "\v"
  else if ((n <? 32)%N || (n =? 127)%N)%bool
       then "\x" +:+ String (hexdigit (n / 16)) (String (hexdigit (n mod 16)) EmptyString)
  else String c EmptyString.

Fixpoint quote_bytes (s : string) : string :=
  match s with
  | EmptyString => EmptyString
  | String c r => quote_byte c +:+ quote_bytes r
  end.

Definition strconv_Quote (s : string) : string := dq +:+ quote_bytes s +:+ dq.

(** [strings.Join] *)
Fixpoint strings_Join (elems : list string) (sep : string) : string :=
  match elems with
  | [] => ""
  | [e] => e
  | e :: rest => e +:+ sep +:+ strings_Join rest sep
  end.

(** ** Package transitdb: the data *)

Module transitdb.

(** [type Date time.Time] *)
Definition Date := Time.

Record Offer : Type := {
  ID : Z;
  OriginAirport : string;
  DestinationAirport : string;
  Cost : Z;
  Source : string;
  AvailableFrom : Date;
  AvailableTo : Date;
  OfferedAt : Time;
  ExpiresAt : Time
}.

Record Quote : Type := {
  QCost : Z;
  Origin : string;
  OriginCountry : string;
  Dest : string;
  DestCountry : string;
  QDate : Date
}.

Record ListQuotesRequest : Type := {
  StartDate : Time;
  EndDate : Time;
  Origins : list string;
  Destinations : list string;
  Limit : Z;
  Offset : Z
}.

(** [func (o *Offer) Validate() error] *)
Definition Validate (o : Offer) : option error :=
  if Cost o <=? 0 then Some (errorString "missing cost")
  else if String.eqb (Source o) EmptyString then Some (errorString "missing source")
  else if IsZero (OfferedAt o) then Some (errorString "missing offeredAt")
  else if IsZero (AvailableFrom o) then Some (errorString "missing availableFrom")
  else None.

(** [type Store interface]: the four operations, over a world [W] that the
    implementation reads and writes. *)
Class Store (W : Type) : Type := {
  AirportIDByIATA : string -> W -> result Z * W;
  SaveOffer : Offer -> W -> option error * W;
  CheapestPerRoute : Time -> Time -> W -> result (list Quote) * W;
  ListQuotes : ListQuotesRequest -> W -> result (list Quote) * W
}.

(** *** net/http, as far as the handlers use it *)

(** What [bufio.NewScanner(r.Body)] yields: the lines, then the error
    [scanner.Err()] reports after the last of them (a read failure or a line
    over the token limit), if any. *)
Record Scanner : Type := {
  tokens : list string;
  scan_err : option error
}.

(** [*http.Request]: the parsed form values and the body. *)
Record Request : Type := {
  Form : gmap string (list string);
  Body : Scanner
}.

(** [r.Form[key]] *)
Definition Form_get (r : Request) (key : string) : list string :=
  default [] (Form r !! key).

(** [r.FormValue(key)]: the first value, or the empty string. *)
Definition FormValue (r : Request) (key : string) : string :=
  match Form_get r key with
  | v :: _ => v
  | [] => ""
  end.

(** What a handler leaves in its [http.ResponseWriter]. *)
Record Response : Type := {
  Status : Z;
  Header : gmap string string;
  RBody : string
}.

Definition StatusOK : Z := 200.
Definition StatusBadRequest : Z := 400.
Definition StatusInternalServerError : Z := 500.

(** [http.StatusText], on the one code the handlers pass. *)
Definition StatusText (code : Z) : string :=
  if code =? 500 then "Internal Server Error"
  else if code =? 400 then "Bad Request"
  else if code =? 200 then "OK"
  else "".

(** [http.Error(w, msg, code)]: plain text, the code, the message and a line
    feed. *)
Definition http_Error (msg : string) (code : Z) : Response :=
  {| Status := code;
     Header := <["X-Content-Type-Options" := "nosniff"]>
                 (<["Content-Type" := "text/plain; charset=utf-8"]> ∅);
     RBody := msg +:+ nl |}.

(** [fmt.Fprintln(os.Stderr, "[error]", err)] *)
Definition log_error (e : error) : string := "[error] " +:+ Error e +:+ nl.

(** *** strconv.Atoi, on a 64-bit [int] *)

Definition digit_of (c : ascii) : option Z :=
  let n := Z.of_N (N_of_ascii c) in
  if (48 <=? n) && (n <=? 57) then Some (n - 48) else None.

Fixpoint digits_value (s : string) (acc : Z) : option Z :=
  match s with
  | EmptyString => Some acc
  | String c r =>
      match digit_of c with
      | Some d => digits_value r (acc * 10 + d)
      | None => None
      end
  end.

Definition MaxInt : Z := 2 ^ 63 - 1.
Definition MinInt : Z := - 2 ^ 63.

Definition strconv_Atoi (s : string) : Z * option error :=
  let syntax := Some (errorString "strconv.Atoi: invalid syntax") in
  let range := Some (errorString "strconv.Atoi: value out of range") in
  let '(neg, body) :=
    match s with
    | String "-"%char r => (true, r)
    | String "+"%char r => (false, r)
    | _ => (false, s)
    end in
  match body with
  | EmptyString => (0, syntax)
  | _ =>
      match digits_value body 0 with
      | None => (0, syntax)
      | Some n =>
          let v := if neg then - n else n in
          if v <? MinInt then (MinInt, range)
          else if MaxInt <? v then (MaxInt, range)
          else (v, None)
      end
  end.

(** *** quote.go: the query façade *)

Section FromHTTP.

(** [time.Parse(layout, value)] is the standard library's. *)
Variable time_Parse : string -> string -> result Time.

(** [func (l *ListQuotesRequest) FromHTTP(r *http.Request) error]: the
    request it fills in, or the error it returns. *)
Definition FromHTTP (r : Request) : result ListQuotesRequest :=
  match time_Parse "2006-01-02" (FormValue r "start") with
  | Err _ => Err (errorString "invalid 'start'")
  | Ok startDate =>
      match time_Parse "2006-01-02" (FormValue r "end") with
      | Err _ => Err (errorString "invalid 'end'")
      | Ok endDate =>
          let origins := Form_get r "origin" in
          let dests := Form_get r "dest" in
          let limit := fst (strconv_Atoi (FormValue r "limit")) in
          let limit := if limit =? 0 then 100 else limit in
          let offset := fst (strconv_Atoi (FormValue r "offset")) in
          Ok {| StartDate := startDate;
                EndDate := endDate;
                Origins := origins;
                Destinations := dests;
                Limit := limit;
                Offset := offset |}
      end
  end.

End FromHTTP.

(** *** handler.go *)

Record Outcome (W : Type) : Type := {
  response : Response;
  stderr : list string;
  world : W
}.
Arguments response {W} _.
Arguments stderr {W} _.
Arguments world {W} _.

Section Handler.

Context {W : Type} {S : Store W}.

(** [json.Unmarshal(line, &offer)], [json.MarshalIndent(res, "", "\t")] and
    [time.Parse] are the standard library's. *)
Variable json_Unmarshal : string -> result Offer.
Variable json_MarshalIndent : list Quote -> result string.
Variable time_Parse : string -> string -> result Time.

(** The body of the loop of [HandleAddOffers], from line number [line] with
    [saved] records saved so far. *)
Fixpoint addOffers_loop (lines : list string) (err : option error)
    (line saved : Z) (w : W) : Outcome W :=
  match lines with
  | [] =>
      match err with
      | Some e =>
          {| response := http_Error (StatusText StatusInternalServerError)
                           StatusInternalServerError;
             stderr := [log_error e];
             world := w |}
      | None =>
          {| response := {| Status := StatusOK; Header := ∅;
                            RBody := "saved " +:+ pretty saved +:+ " records" +:+ nl |};
             stderr := [];
             world := w |}
      end
  | l :: rest =>
      match json_Unmarshal l with
      | Err _ =>
          {| response := http_Error ("line " +:+ pretty line +:+ ": bad json")
                           StatusBadRequest;
             stderr := [];
             world := w |}
      | Ok offer =>
          match Validate offer with
          | Some e =>
              {| response := http_Error ("line " +:+ pretty line +:+ ": " +:+ Error e)
                               StatusBadRequest;
                 stderr := [];
                 world := w |}
          | None =>
              match SaveOffer offer w with
              | (Some e, w') =>
                  {| response := http_Error (StatusText StatusInternalServerError)
                                   StatusInternalServerError;
                     stderr := [log_error e];
                     world := w' |}
              | (None, w') => addOffers_loop rest err (line + 1) (saved + 1) w'
              end
          end
      end
  end.

(** [func (h *Handler) HandleAddOffers(w, r)] *)
Definition HandleAddOffers (r : Request) (w : W) : Outcome W :=
  addOffers_loop (tokens (Body r)) (scan_err (Body r)) 1 0 w.

(** [fmt.Fprintf(w, "%s,%s,%d\n", r.Origin, r.Dest, r.Cost)] *)
Definition quote_line (q : Quote) : string :=
  Origin q +:+ "," +:+ Dest q +:+ "," +:+ pretty (QCost q) +:+ nl.

Definition thirty_days : Z := 24 * 3600000000000 * 30.

(** [func (h *Handler) HandleCheapestPerRoute(w, r)]; [t0] and [t1] are the
    two readings of [time.Now()]. *)
Definition HandleCheapestPerRoute (t0 t1 : Time) (r : Request) (w : W) : Outcome W :=
  let startDate := t0 in
  let endDate := t1 + thirty_days in
  match CheapestPerRoute startDate endDate w with
  | (Err e, w') =>
      {| response := http_Error (Error e) StatusInternalServerError;
         stderr := [log_error e];
         world := w' |}
  | (Ok resp, w') =>
      {| response := {| Status := StatusOK; Header := ∅;
                        RBody := foldr (λ q out, quote_line q +:+ out) "" resp |};
         stderr := [];
         world := w' |}
  end.

(** [func (h *Handler) HandleListQuotes(w, r)] (the [fmt.Println(query)] to
    stdout is left out). *)
Definition HandleListQuotes (r : Request) (w : W) : Outcome W :=
  match FromHTTP time_Parse r with
  | Err e =>
      {| response := http_Error (Error e) StatusBadRequest;
         stderr := [];
         world := w |}
  | Ok query =>
      match ListQuotes query w with
      | (Err e, w') =>
          {| response := http_Error (Error e) StatusInternalServerError;
             stderr := [log_error e];
             world := w' |}
      | (Ok res, w') =>
          match json_MarshalIndent res with
          | Err e =>
              {| response := http_Error (Error e) StatusInternalServerError;
                 stderr := [log_error e];
                 world := w' |}
          | Ok data =>
              {| response := {| Status := StatusOK;
                                Header := <["Content-Type" := "application/json"]> ∅;
                                RBody := data |};
                 stderr := [];
                 world := w' |}
          end
      end
  end.

End Handler.

End transitdb.

(** ** Package pg: the PostgreSQL store *)

Module pg.

Import transitdb.

(** *** The schema *)

(** [places]: [place_id] is the primary key; [iata_code] is nullable and
    carries a unique index. *)
Record Place : Type := {
  place_id : Z;
  latitude : QArith_base.Q;
  longitude : QArith_base.Q;
  name : string;
  country : string;
  iata_code : option string
}.

(** [offers]: [end_time] and [expires_at] are the nullable columns.  DATE and
    TIMESTAMP values are points of the one time line [Time]. *)
Record OfferRow : Type := {
  offer_id : Z;
  origin_id : Z;
  dest_id : Z;
  cost : Z;
  source : string;
  start_time : Time;
  end_time : option Time;
  created_at : Time;
  expires_at : option Time
}.

(** The tables, and the sequence behind [offer_id SERIAL]. *)
Record Tables : Type := {
  places : list Place;
  offers : list OfferRow;
  offers_offer_id_seq : Z
}.

(** The statements the store sends, recorded in the order sent. *)
Inductive statement : Type :=
| SelectPlaceID (iata : string)
| InsertOffer (o : Offer)
| SelectCheapestPerRoute (start end_ : Time)
| SelectListQuotes (p1 p2 : Time) (p3 p4 : string) (p5 p6 : Z).

(** The world of the store: the database, the server's clock [NOW()], the
    package-level [airportIDCache], and the statements sent. *)
Record World : Type := {
  tables : Tables;
  NOW : Time;
  airportIDCache : gmap string Z;
  sent : list statement
}.

Definition send (s : statement) (w : World) : World :=
  {| tables := tables w; NOW := NOW w;
     airportIDCache := airportIDCache w; sent := sent w ++ [s] |}.

Definition set_tables (t : Tables) (w : World) : World :=
  {| tables := t; NOW := NOW w;
     airportIDCache := airportIDCache w; sent := sent w |}.

Definition set_cache (c : gmap string Z) (w : World) : World :=
  {| tables := tables w; NOW := NOW w;
     airportIDCache := c; sent := sent w |}.

(** *** SQL helpers *)

(** [SELECT place_id FROM places WHERE iata_code = $1]: the rows. *)
Definition select_place_id (t : Tables) (iata : string) : list Z :=
  place_id <$> filter (λ p, iata_code p = Some iata) (places t).

(** The same query as a scalar subquery: NULL when no row matches (the unique
    index on [iata_code] leaves at most one). *)
Definition scalar_place_id (t : Tables) (iata : string) : option Z :=
  head (select_place_id t iata).

(** The aggregate [MIN] over the rows of a group; NULL for no row. *)
Definition MIN (l : list Z) : option Z :=
  match l with
  | [] => None
  | x :: r => Some (foldr Z.min x r)
  end.

(** [x BETWEEN a AND b] *)
Definition BETWEEN (x a b : Z) : bool := (a <=? x) && (x <=? b).

(** [string_to_array(s, ',')]: the empty array for the empty string, else the
    fields between the commas. *)
Fixpoint split_comma (s : string) : list string :=
  match s with
  | EmptyString => [EmptyString]
  | String c r =>
      if Ascii.eqb c ","%char then EmptyString :: split_comma r
      else match split_comma r with
           | h :: t => String c h :: t
           | [] => [String c EmptyString]
           end
  end.

Definition string_to_array (s : string) : list string :=
  if String.eqb s EmptyString then [] else split_comma s.

(** [$n = '' OR code = ANY(string_to_array($n, ','))] as a WHERE condition: a
    NULL [code] makes the second disjunct NULL, which does not pass. *)
Definition code_passes (param : string) (code : option string) : bool :=
  String.eqb param EmptyString
  || match code with
     | Some c => bool_decide (c ∈ string_to_array param)
     | None => false
     end.

(** [expires_at > NOW()] as a WHERE condition: NULL does not pass. *)
Definition expires_after (e : option Time) (now : Time) : bool :=
  match e with
  | Some e => now <? e
  | None => false
  end.

(** [ORDER BY cost ASC] on the rows of a result.  The clause fixes no order
    among rows of equal cost; this is the execution that keeps such rows in
    the order they were produced in (a stable insertion sort). *)
Section OrderBy.
Context {A : Type} (key : A -> Z).

Fixpoint insert_by (x : A) (l : list A) : list A :=
  match l with
  | [] => [x]
  | y :: r => if key x <=? key y then x :: y :: r else y :: insert_by x r
  end.

Definition order_by (l : list A) : list A := foldr insert_by [] l.

End OrderBy.

(** [LIMIT n OFFSET k]: PostgreSQL refuses a negative count; it looks at the
    offset first. *)
Definition limit_offset {A : Type} (n k : Z) (rows : list A) : result (list A) :=
  if k <? 0 then Err (pqError "invalid_row_count_in_result_offset_clause" "" "OFFSET must not be negative")
  else if n <? 0 then Err (pqError "invalid_row_count_in_limit_clause" "" "LIMIT must not be negative")
  else Ok (take (Z.to_nat n) (drop (Z.to_nat k) rows)).

(** *** AirportIDByIATA *)

Definition ErrNoRows : error := errorString "sql: no rows in result set".

(** [func (s *Store) AirportIDByIATA(ctx, iata) (int, error)] *)
Definition AirportIDByIATA (iata : string) (w : World) : result Z * World :=
  match airportIDCache w !! iata with
  | Some id => (Ok id, w)
  | None =>
      let w := send (SelectPlaceID iata) w in
      match select_place_id (tables w) iata with
      | [] => (Err ErrNoRows, w)
      | id :: _ => (Ok id, set_cache (<[iata := id]> (airportIDCache w)) w)
      end
  end.

(** *** SaveOffer *)

(** [pq.NullTime{Time: t, Valid: valid}] *)
Definition NullTime (t : Time) (valid : bool) : option Time :=
  if valid then Some t else None.

Definition not_null_violation (column : string) : error :=
  pqError "not_null_violation" column
    ("null value in column " +:+ dq +:+ column +:+ dq +:+ " violates not-null constraint").

(** [source VARCHAR(20)]: a value is measured in characters.  In UTF-8 a byte
    [10xxxxxx] continues the character before it. *)
Definition is_continuation (c : ascii) : bool :=
  let n := N_of_ascii c in ((128 <=? n)%N && (n <? 192)%N)%bool.

Fixpoint char_length (s : string) : nat :=
  match s with
  | EmptyString => O
  | String c r => if is_continuation c then char_length r else S (char_length r)
  end.

(** The first [n] characters of [s], and what follows them. *)
Fixpoint clip (n : nat) (s : string) : string * string :=
  match s with
  | EmptyString => (EmptyString, EmptyString)
  | String c r =>
      if is_continuation c then let '(h, t) := clip n r in (String c h, t)
      else match n with
           | O => (EmptyString, s)
           | S n' => let '(h, t) := clip n' r in (String c h, t)
           end
  end.

Fixpoint all_spaces (s : string) : bool :=
  match s with
  | EmptyString => true
  | String c r => Ascii.eqb c " "%char && all_spaces r
  end.

(** Storing [s] in a [VARCHAR(n)] column: the value as it is when it has at
    most [n] characters; clipped to [n] characters when only spaces follow
    them; refused otherwise. *)
Definition varchar (n : nat) (s : string) : option string :=
  let '(h, t) := clip n s in
  if all_spaces t then Some h else None.

Definition value_too_long : error :=
  pqError "string_data_right_truncation" ""
    "value too long for type character varying(20)".

(** [offer_id SERIAL]: the sequence of a 32-bit column stops at its
    maximum. *)
Definition MaxInt32 : Z := 2147483647.

Definition sequence_exhausted : error :=
  pqError "sequence_generator_limit_exceeded" ""
    ("nextval: reached maximum value of sequence " +:+ dq +:+ "offers_offer_id_seq"
     +:+ dq +:+ " (2147483647)").

(** The INSERT of [SaveOffer].  [$4] is fitted to [VARCHAR(20)] when the
    statement is bound, before anything runs: a value that does not fit is
    refused there and the sequence is not touched.  Then the sequence gives
    [offer_id] (and keeps the value it handed out when the row is refused
    later), the two subqueries give the place ids, and the NOT NULL
    constraints are checked in column order. *)
Definition insert_offer (t : Tables) (p1 p2 : string) (p3 : Z) (p4 : string)
    (p5 p6 : option Time) (p7 : Time) (p8 : option Time) : option error * Tables :=
  match varchar 20 p4 with
  | None => (Some value_too_long, t)
  | Some source_ =>
      if MaxInt32 <=? offers_offer_id_seq t then (Some sequence_exhausted, t)
      else
        let id := offers_offer_id_seq t + 1 in
        let refused :=
          {| places := places t; offers := offers t; offers_offer_id_seq := id |} in
        match scalar_place_id t p1 with
        | None => (Some (not_null_violation "origin_id"), refused)
        | Some origin =>
            match scalar_place_id t p2 with
            | None => (Some (not_null_violation "dest_id"), refused)
            | Some dest =>
                match p5 with
                | None => (Some (not_null_violation "start_time"), refused)
                | Some start =>
                    (None,
                     {| places := places t;
                        offers := offers t ++
                          [{| offer_id := id; origin_id := origin; dest_id := dest;
                              cost := p3; source := source_; start_time := start;
                              end_time := p6; created_at := p7; expires_at := p8 |}];
                        offers_offer_id_seq := id |})
                end
            end
        end
  end.

(** [func (s *Store) SaveOffer(ctx, o) error] *)
Definition SaveOffer (o : Offer) (w : World) : option error * World :=
  let availableFrom := NullTime (AvailableFrom o) (negb (IsZero (AvailableFrom o))) in
  let availableTo := NullTime (AvailableTo o) (negb (IsZero (AvailableTo o))) in
  let expiresAt := NullTime (ExpiresAt o) (negb (IsZero (ExpiresAt o))) in
  let '(err, t) :=
    insert_offer (tables w) (OriginAirport o) (DestinationAirport o) (Cost o)
      (Source o) availableFrom availableTo (OfferedAt o) expiresAt in
  let w := set_tables t (send (InsertOffer o) w) in
  match err with
  | Some (pqError code column message) =>
      let isNullErr := String.eqb code "not_null_violation" in
      if isNullErr && String.eqb column "origin_id"
      then (Some (errorString ("unknown origin airport " +:+ strconv_Quote (OriginAirport o))), w)
      else if isNullErr && String.eqb column "dest_id"
      then (Some (errorString ("unknown destination airport " +:+ strconv_Quote (DestinationAirport o))), w)
      else (Some (pqError code column message), w)
  | Some e => (Some e, w)
  | None => (None, w)
  end.

(** *** CheapestPerRoute *)

Definition route : Type := (Z * Z)%type.
Definition route_of (o : OfferRow) : route := (origin_id o, dest_id o).

(** The CTE [cheapest]: the offers starting in the window, grouped by
    [(origin_id, dest_id)]; per group [MIN(start_time)] and [MIN(cost)].
    A row is [(origin_id, dest_id, start_time, cost)]. *)
Definition cheapest (t : Tables) (p1 p2 : Time) : list (Z * Z * Time * Z) :=
  let rows := filter (λ o, BETWEEN (start_time o) p1 p2) (offers t) in
  omap (λ k : route,
          let group := filter (λ o, route_of o = k) rows in
          s ← MIN (start_time <$> group);
          c ← MIN (cost <$> group);
          Some (k.1, k.2, s, c))
       (remove_dups (route_of <$> rows)).

(** A row of the result of [cheapestPerRouteSQL]. *)
Record CheapestRow : Type := {
  origin_iata_code : option string;
  origin_country : string;
  dest_iata_code : option string;
  dest_country : string;
  cheapest_cost : Z;
  cheapest_start_time : Time
}.

(** [cheapestPerRouteSQL] with [$1] and [$2]. *)
Definition cheapestPerRouteSQL (t : Tables) (p1 p2 : Time) : list CheapestRow :=
  order_by cheapest_cost
    ('(origin_id, dest_id, start_time, cost) ← cheapest t p1 p2;
     origin ← filter (λ p, place_id p = origin_id) (places t);
     dest ← filter (λ p, place_id p = dest_id) (places t);
     [{| origin_iata_code := iata_code origin;
         origin_country := country origin;
         dest_iata_code := iata_code dest;
         dest_country := country dest;
         cheapest_cost := cost;
         cheapest_start_time := start_time |}]).

(** [rows.Scan] goes through the columns in order and refuses a NULL for a
    [*string]; the error names the index of the column. *)
Definition scan_null (index : nat) : error :=
  errorString ("sql: Scan error on column index " +:+ pretty index +:+ ", name "
               +:+ dq +:+ "iata_code" +:+ dq
               +:+ ": converting NULL to string is unsupported").

(** [rows.Scan(&res.Origin, &res.OriginCountry, &res.Dest, &res.DestCountry,
    &res.Cost, &res.Date)]: the two codes are columns 0 and 2. *)
Definition scan_cheapest (r : CheapestRow) : result Quote :=
  match origin_iata_code r with
  | None => Err (scan_null 0)
  | Some o =>
      match dest_iata_code r with
      | None => Err (scan_null 2)
      | Some d =>
          Ok {| QCost := cheapest_cost r; Origin := o; OriginCountry := origin_country r;
                Dest := d; DestCountry := dest_country r; QDate := cheapest_start_time r |}
      end
  end.

(** The [for rows.Next()] loop: the quotes scanned, or the first error. *)
Fixpoint scan_rows {R : Type} (scan : R -> result Quote) (rows : list R)
    : result (list Quote) :=
  match rows with
  | [] => Ok []
  | r :: rest =>
      match scan r with
      | Err e => Err e
      | Ok q =>
          match scan_rows scan rest with
          | Err e => Err e
          | Ok qs => Ok (q :: qs)
          end
      end
  end.

(** [func (s *Store) CheapestPerRoute(ctx, start, end) ([]Quote, error)] *)
Definition CheapestPerRoute (start end_ : Time) (w : World) : result (list Quote) * World :=
  let w := send (SelectCheapestPerRoute start end_) w in
  (scan_rows scan_cheapest (cheapestPerRouteSQL (tables w) start end_), w).

(** *** ListQuotes *)

(** The CTE [matching_offers]: [offers] joined with its two places, kept when
    the start is in the window, the two code conditions pass and the offer
    expires after [NOW()]. *)
Definition matching_offers (t : Tables) (now : Time) (p1 p2 : Time) (p3 p4 : string)
    : list OfferRow :=
  o ← offers t;
  origin ← filter (λ p, place_id p = origin_id o) (places t);
  dest ← filter (λ p, place_id p = dest_id o) (places t);
  if BETWEEN (start_time o) p1 p2
     && code_passes p3 (iata_code origin)
     && code_passes p4 (iata_code dest)
     && expires_after (expires_at o) now
  then [o] else [].

(** The CTE [min_offers]: per [(origin_id, dest_id)], [MIN(cost)].
    A row is [(origin_id, dest_id, cost)]. *)
Definition min_offers (m : list OfferRow) : list (Z * Z * Z) :=
  omap (λ k : route,
          c ← MIN (cost <$> filter (λ o, route_of o = k) m);
          Some (k.1, k.2, c))
       (remove_dups (route_of <$> m)).

(** The CTE [next_min_offer]: [min_offers] joined with [matching_offers] on
    [(origin_id, dest_id, cost)], grouped by these; per group
    [MIN(start_time)].  A row is [(origin_id, dest_id, cost, start_time)]. *)
Definition next_min_offer (m : list OfferRow) : list (Z * Z * Z * Time) :=
  let joined :=
    k ← min_offers m;
    o ← filter (λ o, (origin_id o, dest_id o, cost o) = k) m;
    [(k, o)] in
  omap (λ k : Z * Z * Z,
          s ← MIN ((λ j, start_time j.2) <$> filter (λ j, j.1 = k) joined);
          Some (k, s))
       (remove_dups (fst <$> joined)).

(** The FROM clause of the final SELECT: [next_min_offer] joined with
    [offers] on the four columns, and with the offer's two places. *)
Definition quote_sources (t : Tables) (m : list OfferRow)
    : list ((Z * Z * Z * Time) * OfferRow * Place * Place) :=
  n ← next_min_offer m;
  o ← filter (λ o, (origin_id o, dest_id o, cost o, start_time o) = n) (offers t);
  dest ← filter (λ p, place_id p = dest_id o) (places t);
  origin ← filter (λ p, place_id p = origin_id o) (places t);
  [(n, o, dest, origin)].

(** Its select list. *)
Definition select_quote (j : (Z * Z * Z * Time) * OfferRow * Place * Place) : Quote :=
  let '(n, o, dest, origin) := j in
  {| QCost := n.1.2; Origin := name origin; OriginCountry := country origin;
     Dest := name dest; DestCountry := country dest; QDate := n.2 |}.

(** The final SELECT before LIMIT and OFFSET: all rows, cheapest first. *)
Definition ordered_quotes (t : Tables) (now : Time) (p1 p2 : Time) (p3 p4 : string)
    : list Quote :=
  order_by QCost (select_quote <$> quote_sources t (matching_offers t now p1 p2 p3 p4)).

(** [listQuotesSQL] with [$1] to [$6]. *)
Definition listQuotesSQL (t : Tables) (now : Time) (p1 p2 : Time) (p3 p4 : string)
    (p5 p6 : Z) : result (list Quote) :=
  limit_offset p5 p6 (ordered_quotes t now p1 p2 p3 p4).

(** [func (s *Store) ListQuotes(ctx, q) ([]Quote, error)]: the rows scan into
    NOT NULL columns, so the loop keeps them all. *)
Definition ListQuotes (q : ListQuotesRequest) (w : World) : result (list Quote) * World :=
  let p3 := strings_Join (Origins q) "," in
  let p4 := strings_Join (Destinations q) "," in
  let w := send (SelectListQuotes (StartDate q) (EndDate q) p3 p4 (Limit q) (Offset q)) w in
  (listQuotesSQL (tables w) (NOW w) (StartDate q) (EndDate q) p3 p4 (Limit q) (Offset q), w).

(** [*pg.Store] implements the interface. *)
#[export] Instance pg_Store : transitdb.Store World := {|
  transitdb.AirportIDByIATA := AirportIDByIATA;
  transitdb.SaveOffer := SaveOffer;
  transitdb.CheapestPerRoute := CheapestPerRoute;
  transitdb.ListQuotes := ListQuotes
|}.

End pg.

(** ** The earlier command, main: its airport lookup *)

Module main.

Import pg.

(** [func (q LookupAirportQuery) Exec(queryer) (int, error)], with its own
    package-level cache of the same shape. *)
Definition LookupAirportQuery_Exec (IATACode : string) (w : World) : result Z * World :=
  match airportIDCache w !! IATACode with
  | Some id => (Ok id, w)
  | None =>
      let w := send (SelectPlaceID IATACode) w in
      match select_place_id (tables w) IATACode with
      | [] => (Err ErrNoRows, w)
      | id :: _ => (Ok id, set_cache (<[IATACode := id]> (airportIDCache w)) w)
      end
  end.

(** The scan loop of the two queries below: the rows scanned, or the first
    error. *)
Fixpoint scan_loop {R A : Type} (scan : R -> result A) (rows : list R)
    : result (list A) :=
  match rows with
  | [] => Ok []
  | r :: rest =>
      match scan r with
      | Err e => Err e
      | Ok a =>
          match scan_loop scan rest with
          | Err e => Err e
          | Ok l => Ok (a :: l)
          end
      end
  end.

(** [type GetCheapestRouteQuery] and [type GetCheapestRouteResult] *)
Record GetCheapestRouteQuery : Type := {
  RouteStartDate : Time;
  RouteEndDate : Time
}.

Record GetCheapestRouteResult : Type := {
  RouteCost : Z;
  RouteOrigin : string;
  RouteDest : string
}.

(** A row of the result of [getCheapestRouteSQL]. *)
Record CheapestRouteRow : Type := {
  route_origin_iata_code : option string;
  route_dest_iata_code : option string;
  route_cost : Z
}.

(** [getCheapestRouteSQL] with [$1] and [$2].  Its CTE [cheapest] groups the
    offers that start in the window by [(origin_id, dest_id)] and takes
    [MIN(cost)]: the shape of [min_offers], over these rows. *)
Definition getCheapestRouteSQL (t : Tables) (p1 p2 : Time) : list CheapestRouteRow :=
  order_by route_cost
    ('(origin_id, dest_id, cost) ←
        min_offers (filter (λ o, BETWEEN (start_time o) p1 p2) (offers t));
     origin ← filter (λ p, place_id p = origin_id) (places t);
     dest ← filter (λ p, place_id p = dest_id) (places t);
     [{| route_origin_iata_code := iata_code origin;
         route_dest_iata_code := iata_code dest;
         route_cost := cost |}]).

(** [rows.Scan(&res.Origin, &res.Dest, &res.Cost)]: the two codes are
    columns 0 and 1. *)
Definition scan_route (r : CheapestRouteRow) : result GetCheapestRouteResult :=
  match route_origin_iata_code r with
  | None => Err (scan_null 0)
  | Some o =>
      match route_dest_iata_code r with
      | None => Err (scan_null 1)
      | Some d => Ok {| RouteCost := route_cost r; RouteOrigin := o; RouteDest := d |}
      end
  end.

(** [func (q GetCheapestRouteQuery) Exec(queryer) ([]GetCheapestRouteResult, error)] *)
Definition GetCheapestRouteQuery_Exec (q : GetCheapestRouteQuery) (w : World)
    : result (list GetCheapestRouteResult) :=
  scan_loop scan_route (getCheapestRouteSQL (tables w) (RouteStartDate q) (RouteEndDate q)).

(** [type GetCheapestQuery] and [type GetCheapestResult] *)
Record GetCheapestQuery : Type := {
  StartDate : Time;
  EndDate : Time;
  Origins : list string;
  Destinations : list string;
  Limit : Z;
  Offset : Z
}.

Record GetCheapestResult : Type := {
  Cost : Z;
  Dest : string;
  DestCountry : string;
  CheapestDate : Time
}.

(** The select list of [getCheapestSQL]: [cost, dest.name, dest.country,
    start_time AS cheapest_date]. *)
Definition select_cheapest (j : (Z * Z * Z * Time) * OfferRow * Place * Place)
    : GetCheapestResult :=
  let '(n, o, dest, origin) := j in
  {| Cost := n.1.2; Dest := name dest; DestCountry := country dest; CheapestDate := n.2 |}.

(** [getCheapestSQL] with [$1] to [$6]: the three CTEs and the FROM clause
    are those of [listQuotesSQL]. *)
Definition getCheapestSQL (t : Tables) (now : Time) (p1 p2 : Time) (p3 p4 : string)
    (p5 p6 : Z) : result (list GetCheapestResult) :=
  limit_offset p5 p6
    (order_by Cost
       (select_cheapest <$> quote_sources t (matching_offers t now p1 p2 p3 p4))).

(** [func (q GetCheapestQuery) Exec(queryer) ([]GetCheapestResult, error)] *)
Definition GetCheapestQuery_Exec (q : GetCheapestQuery) (w : World)
    : result (list GetCheapestResult) :=
  getCheapestSQL (tables w) (NOW w) (StartDate q) (EndDate q)
    (strings_Join (Origins q) ",") (strings_Join (Destinations q) ",")
    (Limit q) (Offset q).

Section API.

Variable json_MarshalIndent : list GetCheapestResult -> result string.
Variable time_Parse : string -> string -> result Time.


End API.

End main.

(** ** Package client *)

Module client.

Import transitdb.


Section Client.

Context {W : Type}.

(** [json.NewEncoder(buf).Encode(offer)]: the line it writes, without the
    line feed that ends it, or its error.  [Do] is [c.HTTPClient.Do] on the
    POST to [BaseURL + "/offers"]: the response, or the transport's error. *)
Variable json_Encode : Offer -> result string.
Variable Do : Request -> W -> result Response * W.



End Client.

End client.

(** * The vocabulary of the properties *)

Import transitdb.
Import pg.

(** ** Orders and minima *)

(** A list of rows ascends by [key]. *)
Definition ascending {A : Type} (key : A -> Z) : list A -> Prop :=
  StronglySorted (λ a b, key a <= key b).

(** [m] is the least of the values that satisfy [P]. *)
Definition least (m : Z) (P : Z -> Prop) : Prop :=
  P m /\ forall y, P y -> m <= y.

(** ** Tables *)

(** An airport code resolves when some place carries it. *)
Definition resolves (t : Tables) (code : string) : Prop :=
  exists p, p ∈ places t /\ iata_code p = Some code.

(** An offer is a candidate of a [ListQuotes] query when it starts in the
    window, has not expired, and its two places pass the code conditions. *)
Definition candidate (t : Tables) (now p1 p2 : Time) (p3 p4 : string) (x : OfferRow) : Prop :=
  x ∈ offers t /\
  BETWEEN (start_time x) p1 p2 = true /\
  expires_after (expires_at x) now = true /\
  (exists origin, origin ∈ places t /\ place_id origin = origin_id x /\
                  code_passes p3 (iata_code origin) = true) /\
  (exists dest, dest ∈ places t /\ place_id dest = dest_id x /\
                code_passes p4 (iata_code dest) = true).

(** [q] is the quote of the route [(o, d)] with cost [c] and date [s], shown
    with the names and countries of places that carry the two ids. *)
Definition quote_of_route (t : Tables) (o d c : Z) (s : Time) (q : Quote) : Prop :=
  exists origin dest,
    origin ∈ places t /\ place_id origin = o /\
    dest ∈ places t /\ place_id dest = d /\
    q = {| QCost := c; Origin := name origin; OriginCountry := country origin;
           Dest := name dest; DestCountry := country dest; QDate := s |}.

(** [place_id] is the primary key of [places]. *)
Definition primary_key (t : Tables) : Prop :=
  forall p p', p ∈ places t -> p' ∈ places t -> place_id p = place_id p' -> p = p'.

(** Every offer refers to two places, and these carry airport codes: the two
    foreign keys, and what [SaveOffer] adds to them by finding the places
    through their codes. *)
Definition airports_referenced (t : Tables) : Prop :=
  forall x, x ∈ offers t ->
    (exists p, p ∈ places t /\ place_id p = origin_id x /\ is_Some (iata_code p)) /\
    (exists p, p ∈ places t /\ place_id p = dest_id x /\ is_Some (iata_code p)).

Definition consistent (t : Tables) : Prop :=
  primary_key t /\ airports_referenced t.

(** ** Requests *)

Definition with_Origins (l : list string) (q : ListQuotesRequest) : ListQuotesRequest :=
  {| StartDate := StartDate q; EndDate := EndDate q; Origins := l;
     Destinations := Destinations q; Limit := Limit q; Offset := Offset q |}.

Definition with_Destinations (l : list string) (q : ListQuotesRequest) : ListQuotesRequest :=
  {| StartDate := StartDate q; EndDate := EndDate q; Origins := Origins q;
     Destinations := l; Limit := Limit q; Offset := Offset q |}.

Definition with_page (limit offset : Z) (q : ListQuotesRequest) : ListQuotesRequest :=
  {| StartDate := StartDate q; EndDate := EndDate q; Origins := Origins q;
     Destinations := Destinations q; Limit := limit; Offset := offset |}.

(** The full result of a request: the rows of the final SELECT, cheapest
    first as [order_by] arranges them, before LIMIT and OFFSET. *)
Definition full_result (q : ListQuotesRequest) (w : World) : list Quote :=
  ordered_quotes (tables w) (NOW w) (StartDate q) (EndDate q)
    (strings_Join (Origins q) ",") (strings_Join (Destinations q) ",").

(** The rows of the final SELECT of a request, as the FROM clause produces
    them, before ORDER BY. *)
Definition selected_rows (q : ListQuotesRequest) (w : World) : list Quote :=
  select_quote <$>
    quote_sources (tables w)
      (matching_offers (tables w) (NOW w) (StartDate q) (EndDate q)
         (strings_Join (Origins q) ",") (strings_Join (Destinations q) ",")).

(** The rows that the final SELECT draws from the offer [x] alone, for the
    candidates [m]: [next_min_offer] joined with [x] on the four columns, and
    with its two places. *)
Definition rows_through (t : Tables) (m : list OfferRow) (x : OfferRow) : list Quote :=
  select_quote <$>
    (n ← filter (λ n, (origin_id x, dest_id x, cost x, start_time x) = n)
                (next_min_offer m);
     dest ← filter (λ p, place_id p = dest_id x) (places t);
     origin ← filter (λ p, place_id p = origin_id x) (places t);
     [(n, x, dest, origin)]).

(** [sorted] is an arrangement that [ORDER BY key ASC] may give to [rows]:
    the same rows, each as often, ascending by [key].  Rows of equal key come
    in any order. *)
Definition sorts_by {A : Type} (key : A -> Z) (rows sorted : list A) : Prop :=
  rows ≡ₚ sorted /\ ascending key sorted.

(** What the database may answer to [listQuotesSQL] for a request: LIMIT and
    OFFSET applied to an arrangement ORDER BY may give.  [ListQuotes] is the
    execution that arranges with [order_by]. *)
Definition may_return (q : ListQuotesRequest) (w : World) (r : result (list Quote)) : Prop :=
  exists sorted,
    sorts_by QCost (selected_rows q w) sorted /\
    r = limit_offset (Limit q) (Offset q) sorted.

(** A code without a comma. *)
Fixpoint comma_free (s : string) : bool :=
  match s with
  | EmptyString => true
  | String c r => negb (Ascii.eqb c ","%char) && comma_free r
  end.

Section FacadeVocabulary.

Variable time_Parse : string -> string -> result Time.

(** [value] parses as a date of the layout 2006-01-02. *)
Definition parses (value : string) : Prop :=
  exists t, time_Parse "2006-01-02" value = Ok t.

End FacadeVocabulary.

(** ** Batches of lines *)

Section HandlerVocabulary.

Context {W : Type} {S : transitdb.Store W}.
Variable json_Unmarshal : string -> result Offer.

(** Every line decodes, validates and is saved, in order, taking the world
    from [w] to [w']. *)
Inductive saved_all : list string -> W -> W -> Prop :=
| saved_nil w : saved_all [] w w
| saved_cons l lines o w w1 w2 :
    json_Unmarshal l = Ok o ->
    Validate o = None ->
    transitdb.SaveOffer o w = (None, w1) ->
    saved_all lines w1 w2 ->
    saved_all (l :: lines) w w2.

(** What the handler answers when line [l], numbered [n], stops the batch in
    world [w1]. *)
Definition stops_at (l : string) (n : Z) (w1 : W) (out : Outcome W) : Prop :=
  match json_Unmarshal l with
  | Err _ =>
      out = {| response := http_Error ("line " +:+ pretty n +:+ ": bad json") StatusBadRequest;
               stderr := []; world := w1 |}
  | Ok o =>
      match Validate o with
      | Some e =>
          out = {| response := http_Error ("line " +:+ pretty n +:+ ": " +:+ Error e)
                                 StatusBadRequest;
                   stderr := []; world := w1 |}
      | None =>
          exists e w2,
            transitdb.SaveOffer o w1 = (Some e, w2) /\
            out = {| response := http_Error "Internal Server Error" StatusInternalServerError;
                     stderr := [log_error e]; world := w2 |}
      end
  end.

(** What the handler answers after the last line. *)
Definition finishes (err : option error) (saved : Z) (w' : W) : Outcome W :=
  match err with
  | Some e =>
      {| response := http_Error "Internal Server Error" StatusInternalServerError;
         stderr := [log_error e]; world := w' |}
  | None =>
      {| response := {| Status := StatusOK; Header := ∅;
                        RBody := "saved " +:+ pretty saved +:+ " records" +:+ nl |};
         stderr := []; world := w' |}
  end.

End HandlerVocabulary.

(** ** A sample database and sample requests, for the concrete cases *)

Definition sample_place (id : Z) (nm ctry : string) (code : option string) : Place :=
  {| place_id := id; latitude := QArith_base.Qmake 0 1; longitude := QArith_base.Qmake 0 1;
     name := nm; country := ctry; iata_code := code |}.

(** Two airports and no offer. *)
Definition sample_tables : Tables :=
  {| places := [sample_place 1 "Long Beach" "US" (Some "LGB");
                sample_place 2 "John F Kennedy" "US" (Some "JFK")];
     offers := [];
     offers_offer_id_seq := 0 |}.

Definition sample_world : World :=
  {| tables := sample_tables; NOW := 50; airportIDCache := ∅; sent := [] |}.

Definition sample_offer (o d : string) (c : Z) (start expires : Time) : Offer :=
  {| ID := 0; OriginAirport := o; DestinationAirport := d; Cost := c;
     Source := "collector"; AvailableFrom := start; AvailableTo := 0;
     OfferedAt := 5; ExpiresAt := expires |}.


(** The sample database with two offers from LGB to JFK: 200 starting on day
    110, and 300 starting on day 101; both expire at 1000, after [NOW]. *)
Definition two_prices : World :=
  snd (SaveOffer (sample_offer "LGB" "JFK" 300 101 1000)
         (snd (SaveOffer (sample_offer "LGB" "JFK" 200 110 1000) sample_world))).

(** One offer from LGB to JFK starting on day 110, expired at 40, before
    [NOW] = 50. *)
Definition expired_world : World :=
  snd (SaveOffer (sample_offer "LGB" "JFK" 200 110 40) sample_world).

(** One offer on each of the two routes: LGB to JFK for 200 on day 110, JFK
    to LGB for 250 on day 120; neither has expired. *)
Definition two_routes : World :=
  snd (SaveOffer (sample_offer "JFK" "LGB" 250 120 1000)
         (snd (SaveOffer (sample_offer "LGB" "JFK" 200 110 1000) sample_world))).


(** Their two quotes. *)
Definition quote_LGB_JFK : Quote :=
  {| QCost := 200; Origin := "Long Beach"; OriginCountry := "US";
     Dest := "John F Kennedy"; DestCountry := "US"; QDate := 110 |}.


Definition quote_JFK_LGB_250 : Quote :=
  {| QCost := 250; Origin := "John F Kennedy"; OriginCountry := "US";
     Dest := "Long Beach"; DestCountry := "US"; QDate := 120 |}.

(** The window from day 101 to day 131, no filter, the first 100 rows. *)
Definition january : ListQuotesRequest :=
  {| StartDate := 101; EndDate := 131; Origins := []; Destinations := [];
     Limit := 100; Offset := 0 |}.

(** A decoder for three sample lines, standing for [json.Unmarshal] in the
    concrete cases: a good offer, an offer from an unknown airport, and an
    offer with cost 0; any other line is refused. *)
Definition sample_Unmarshal (line : string) : result Offer :=
  if String.eqb line "LGB-JFK 200" then Ok (sample_offer "LGB" "JFK" 200 110 1000)
  else if String.eqb line "XXX-JFK 200" then Ok (sample_offer "XXX" "JFK" 200 110 1000)
  else if String.eqb line "LGB-JFK 0" then Ok (sample_offer "LGB" "JFK" 0 110 1000)
  else Err (errorString "invalid character").

Definition sample_MarshalIndent (qs : list Quote) : result string :=
  Ok (foldr (λ q out, quote_line q +:+ out) "" qs).

(** The calendar behind the sample [time.Parse]. *)
Definition is_leap (y : Z) : bool :=
  (y mod 4 =? 0) && (negb (y mod 100 =? 0) || (y mod 400 =? 0)).

Definition days_in (m y : Z) : Z :=
  if m =? 2 then (if is_leap y then 29 else 28)
  else if (m =? 4) || (m =? 6) || (m =? 9) || (m =? 11) then 30
  else 31.

Fixpoint days_before_month (m : nat) (y : Z) : Z :=
  match m with
  | O => 0
  | S m' => days_before_month m' y + days_in (Z.of_nat (S m')) y
  end.

Definition days_before_year (y : Z) : Z :=
  365 * (y - 1) + (y - 1) / 4 - (y - 1) / 100 + (y - 1) / 400.

(** [time.Parse] on the one layout the code uses: four digits, two, two, and
    a day that exists in that month; the instant is counted in nanoseconds
    from 0001-01-01. *)
Definition sample_time_Parse (layout value : string) : result Time :=
  let bad := Err (errorString "parsing time: cannot parse") in
  if negb (String.eqb layout "2006-01-02") then bad else
  match value with
  | String y1 (String y2 (String y3 (String y4 (String "-"%char
      (String m1 (String m2 (String "-"%char (String d1 (String d2 EmptyString))))))))) =>
      match digits_value (String y1 (String y2 (String y3 (String y4 EmptyString)))) 0,
            digits_value (String m1 (String m2 EmptyString)) 0,
            digits_value (String d1 (String d2 EmptyString)) 0 with
      | Some y, Some m, Some d =>
          if (1 <=? m) && (m <=? 12) && (1 <=? d) && (d <=? days_in m y)
          then Ok ((days_before_year y + days_before_month (Z.to_nat (m - 1)) y + (d - 1))
                   * 86400000000000)
          else bad
      | _, _, _ => bad
      end
  | _ => bad
  end.

(** A store that has lost its database: every operation returns the
    driver's error. *)
Definition connection_refused : error :=
  errorString "dial tcp 10.0.0.5:5432: connect: connection refused".

Definition broken_Store : transitdb.Store unit := {|
  transitdb.AirportIDByIATA := λ _ w, (Err connection_refused, w);
  transitdb.SaveOffer := λ _ w, (Some connection_refused, w);
  transitdb.CheapestPerRoute := λ _ _ w, (Err connection_refused, w);
  transitdb.ListQuotes := λ _ w, (Err connection_refused, w)
|}.

Definition post_lines (lines : list string) : Request :=
  {| Form := ∅; Body := {| tokens := lines; scan_err := None |} |}.

(** [GET /quotes?start=2024-01-01&end=2024-01-31], with [limit] when given. *)
Definition get_quotes (limit : list string) : Request :=
  {| Form := <["limit" := limit]> (<["start" := ["2024-01-01"]]> (<["end" := ["2024-01-31"]]> ∅));
     Body := {| tokens := []; scan_err := None |} |}.

(** [POST /offers] on the PostgreSQL store, with the sample decoder. *)
Definition sample_addOffers : Request -> World -> Outcome World :=
  HandleAddOffers (S := pg_Store) sample_Unmarshal.

(** ** Invariants of the tables and of the cache *)

(** The NULL a zero [time.Time] is stored as. *)
Definition null_if_zero (t : Time) : option Time :=
  if IsZero t then None else Some t.


(** The row [x] stores the offer [o]: its two ids are those of places that
    carry the offer's codes, it has the offer's cost, the source as
    [VARCHAR(20)] keeps it, and NULL exactly for a zero [AvailableTo] or
    [ExpiresAt]. *)
Definition stored_as (t : Tables) (o : Offer) (x : OfferRow) : Prop :=
  (exists p, p ∈ places t /\ iata_code p = Some (OriginAirport o) /\
             place_id p = origin_id x) /\
  (exists p, p ∈ places t /\ iata_code p = Some (DestinationAirport o) /\
             place_id p = dest_id x) /\
  cost x = Cost o /\
  varchar 20 (Source o) = Some (source x) /\
  (end_time x = None <-> AvailableTo o = 0) /\
  (expires_at x = None <-> ExpiresAt o = 0).

(** The row [x] stores the offer that the line [l] decodes to, and
    [Validate] accepts that offer. *)
Definition stores_line (json_Unmarshal : string -> result Offer) (t : Tables)
    (l : string) (x : OfferRow) : Prop :=
  exists o, json_Unmarshal l = Ok o /\ Validate o = None /\ stored_as t o x.

(** Every row holds what [Validate] asks of an offer. *)
Definition row_valid (x : OfferRow) : Prop :=
  0 < cost x /\ source x <> "" /\ created_at x <> 0 /\ start_time x <> 0.

Definition rows_valid (t : Tables) : Prop :=
  forall x, x ∈ offers t -> row_valid x.

(** The unique index on [iata_code]. *)
Definition unique_codes (t : Tables) : Prop :=
  forall p p' code, p ∈ places t -> p' ∈ places t ->
    iata_code p = Some code -> iata_code p' = Some code -> p = p'.

(** Every cached id is the id of a place that carries the code. *)
Definition cache_sound (w : World) : Prop :=
  forall code id, airportIDCache w !! code = Some id ->
    exists p, p ∈ places (tables w) /\ iata_code p = Some code /\ place_id p = id.

(** ** The earlier command next to the store *)

(** What the earlier queries keep of a quote, and the earlier request. *)
Definition route_result_of (q : Quote) : main.GetCheapestRouteResult :=
  {| main.RouteCost := QCost q; main.RouteOrigin := Origin q; main.RouteDest := Dest q |}.

Definition cheapest_result_of (q : Quote) : main.GetCheapestResult :=
  {| main.Cost := QCost q; main.Dest := Dest q; main.DestCountry := DestCountry q;
     main.CheapestDate := QDate q |}.

(** What the answer of the earlier filtered query keeps of an answer of
    [ListQuotes]. *)
Definition without_origin (r : result (list Quote)) : result (list main.GetCheapestResult) :=
  match r with
  | Ok page => Ok (cheapest_result_of <$> page)
  | Err e => Err e
  end.

Definition as_GetCheapestQuery (q : ListQuotesRequest) : main.GetCheapestQuery :=
  {| main.StartDate := StartDate q; main.EndDate := EndDate q;
     main.Origins := Origins q; main.Destinations := Destinations q;
     main.Limit := Limit q; main.Offset := Offset q |}.

(** A row of [cheapestPerRouteSQL] as a row of [getCheapestRouteSQL]. *)
Definition forget_start (r : CheapestRow) : main.CheapestRouteRow :=
  {| main.route_origin_iata_code := origin_iata_code r;
     main.route_dest_iata_code := dest_iata_code r;
     main.route_cost := cheapest_cost r |}.

(** The rows of the final SELECT of [cheapestPerRouteSQL] and of
    [getCheapestRouteSQL], as the FROM clause produces them, before
    ORDER BY. *)
Definition cheapestPerRoute_rows (t : Tables) (p1 p2 : Time) : list CheapestRow :=
  '(origin_id, dest_id, start_time, cost) ← cheapest t p1 p2;
  origin ← filter (λ p, place_id p = origin_id) (places t);
  dest ← filter (λ p, place_id p = dest_id) (places t);
  [{| origin_iata_code := iata_code origin;
      origin_country := country origin;
      dest_iata_code := iata_code dest;
      dest_country := country dest;
      cheapest_cost := cost;
      cheapest_start_time := start_time |}].

Definition getCheapestRoute_rows (t : Tables) (p1 p2 : Time) : list main.CheapestRouteRow :=
  '(origin_id, dest_id, cost) ←
     min_offers (filter (λ o, BETWEEN (start_time o) p1 p2) (offers t));
  origin ← filter (λ p, place_id p = origin_id) (places t);
  dest ← filter (λ p, place_id p = dest_id) (places t);
  [{| main.route_origin_iata_code := iata_code origin;
      main.route_dest_iata_code := iata_code dest;
      main.route_cost := cost |}].

(** What the three queries may answer: the rows are scanned, or cut by LIMIT
    and OFFSET, in an arrangement ORDER BY may give. *)
Definition CheapestPerRoute_may_return (start end_ : Time) (w : World)
    (r : result (list Quote)) : Prop :=
  exists sorted,
    sorts_by cheapest_cost (cheapestPerRoute_rows (tables w) start end_) sorted /\
    r = scan_rows scan_cheapest sorted.

Definition GetCheapestRoute_may_return (q : main.GetCheapestRouteQuery) (w : World)
    (r : result (list main.GetCheapestRouteResult)) : Prop :=
  exists sorted,
    sorts_by main.route_cost
      (getCheapestRoute_rows (tables w) (main.RouteStartDate q) (main.RouteEndDate q))
      sorted /\
    r = main.scan_loop main.scan_route sorted.

Definition GetCheapest_may_return (q : main.GetCheapestQuery) (w : World)
    (r : result (list main.GetCheapestResult)) : Prop :=
  exists sorted,
    sorts_by main.Cost
      (main.select_cheapest <$>
         quote_sources (tables w)
           (matching_offers (tables w) (NOW w) (main.StartDate q) (main.EndDate q)
              (strings_Join (main.Origins q) ",")
              (strings_Join (main.Destinations q) ",")))
      sorted /\
    r = limit_offset (main.Limit q) (main.Offset q) sorted.

(** ** The client in front of the handler *)


#[local] Instance Offer_eq_dec : EqDecision Offer.
Proof. solve_decision. Defined.



(** * Properties *)

(** ** The airport directory *)

Section AirportDirectory.

Implicit Types (w : World) (iata : string).

Lemma AirportIDByIATA_hit iata w id :
  airportIDCache w !! iata = Some id -> AirportIDByIATA iata w = (Ok id, w).
Proof. intros Hc. unfold AirportIDByIATA. now rewrite Hc. Qed.

Lemma AirportIDByIATA_miss iata w :
  airportIDCache w !! iata = None ->
  AirportIDByIATA iata w =
    match select_place_id (tables w) iata with
    | [] => (Err ErrNoRows, send (SelectPlaceID iata) w)
    | id :: _ =>
        (Ok id, set_cache (<[iata := id]> (airportIDCache w)) (send (SelectPlaceID iata) w))
    end.
Proof. intros Hc. unfold AirportIDByIATA. now rewrite Hc. Qed.

(** C8. A resolve that fails leaves the cache as it was, and any later
    resolve of that code (in a world whose cache holds what this one left
    for the code) sends the lookup to the store again and succeeds as soon as
    the store has the airport.  A resolve that succeeds leaves the code
    cached, and any later resolve answers from the cache: it returns the same
    id, sends nothing and changes nothing.  The cache changes only on a
    successful store lookup, and only at that code. *)
Theorem AirportIDByIATA_read_through iata w r w' :
  AirportIDByIATA iata w = (r, w') ->
  (forall e, r = Err e ->
     airportIDCache w' = airportIDCache w /\
     sent w' = sent w ++ [SelectPlaceID iata] /\
     forall w2, airportIDCache w2 !! iata = airportIDCache w' !! iata ->
       exists r2 w2',
         AirportIDByIATA iata w2 = (r2, w2') /\
         sent w2' = sent w2 ++ [SelectPlaceID iata] /\
         forall id, head (select_place_id (tables w2) iata) = Some id ->
           r2 = Ok id /\ airportIDCache w2' !! iata = Some id) /\
  (forall id, r = Ok id ->
     airportIDCache w' !! iata = Some id /\
     forall w2, airportIDCache w2 !! iata = airportIDCache w' !! iata ->
       AirportIDByIATA iata w2 = (Ok id, w2)) /\
  (airportIDCache w' <> airportIDCache w ->
     exists id, r = Ok id /\
       head (select_place_id (tables w) iata) = Some id /\
       sent w' = sent w ++ [SelectPlaceID iata] /\
       airportIDCache w' = <[iata := id]> (airportIDCache w)).
Proof.
  intros Hrun.
  destruct (airportIDCache w !! iata) as [id0|] eqn:Hc.
  - rewrite (AirportIDByIATA_hit _ _ _ Hc) in Hrun.
    injection Hrun as <- <-.
    split; [discriminate|]. split.
    + intros id [= <-]. split; [exact Hc|].
      intros w2 H2. apply AirportIDByIATA_hit. now rewrite H2.
    + intros Hne. now destruct Hne.
  - rewrite (AirportIDByIATA_miss _ _ Hc) in Hrun.
    destruct (select_place_id (tables w) iata) as [|id1 rest] eqn:Hsel;
      injection Hrun as <- <-; cbn.
    + split.
      * intros e _. split; [reflexivity|]. split; [reflexivity|].
        intros w2 H2. rewrite Hc in H2.
        rewrite (AirportIDByIATA_miss _ _ H2).
        destruct (select_place_id (tables w2) iata) as [|id2 rest2] eqn:Hsel2.
        -- eexists _, _. split; [reflexivity|]. split; [reflexivity|].
           intros id Hid. discriminate Hid.
        -- eexists _, _. split; [reflexivity|]. split; [reflexivity|].
           intros id [= <-]. split; [reflexivity|]. cbn. apply lookup_insert_eq.
      * split; [discriminate|]. intros Hne. now destruct Hne.
    + split; [discriminate|]. split.
      * intros id [= <-]. split; [apply lookup_insert_eq|].
        intros w2 H2. apply AirportIDByIATA_hit.
        rewrite H2. apply lookup_insert_eq.
      * intros _. exists id1. repeat split; reflexivity.
Qed.

(** A concrete run: ["XXX"] is not in the sample database. *)
Lemma AirportIDByIATA_read_through_witness :
  AirportIDByIATA "XXX" sample_world = (Err ErrNoRows, send (SelectPlaceID "XXX") sample_world) /\
  airportIDCache (send (SelectPlaceID "XXX") sample_world) = airportIDCache sample_world.
Proof.
  split; [reflexivity|].
  exact (proj1 (proj1 (AirportIDByIATA_read_through "XXX" sample_world _ _ eq_refl)
                  ErrNoRows eq_refl)).
Defined.

(** The lookup of the earlier command is the same function. *)
Lemma LookupAirportQuery_Exec_eq iata w :
  main.LookupAirportQuery_Exec iata w = AirportIDByIATA iata w.
Proof. reflexivity. Qed.

End AirportDirectory.

(** ** The offer store *)

Section OfferStore.

Implicit Types (w : World) (o : Offer) (t : Tables).


Lemma scalar_place_id_Some t code :
  resolves t code ->
  exists p, p ∈ places t /\ iata_code p = Some code /\
            scalar_place_id t code = Some (place_id p).
Proof.
  intros (p & Hin & Hcode). unfold scalar_place_id, select_place_id.
  destruct (filter _ (places t)) as [|p0 rest] eqn:Hf.
  - assert (Hp : p ∈ filter (λ p, iata_code p = Some code) (places t))
      by (apply list_elem_of_filter; tauto).
    rewrite Hf in Hp. inversion Hp.
  - assert (Hp0 : p0 ∈ filter (λ p, iata_code p = Some code) (places t))
      by (rewrite Hf; left).
    apply list_elem_of_filter in Hp0. exists p0. cbn. tauto.
Qed.

Lemma clip_fits n s : (char_length s <= n)%nat -> clip n s = (s, EmptyString).
Proof.
  revert n. induction s as [|c r IH]; intros n Hn; [reflexivity|].
  cbn in *. destruct (is_continuation c).
  - now rewrite IH.
  - destruct n as [|n']; [lia|]. rewrite IH; [reflexivity | lia].
Qed.

Lemma char_length_le s : (char_length s <= String.length s)%nat.
Proof.
  induction s as [|c r IH]; cbn; [lia|]. destruct (is_continuation c); lia.
Qed.

(** A value of at most [n] characters is stored as it is. *)
Lemma varchar_fits n s : (char_length s <= n)%nat -> varchar n s = Some s.
Proof. intros Hn. unfold varchar. now rewrite clip_fits. Qed.

(** A source that does not fit its column is refused before anything else is
    looked at, with the database's own error, and nothing is changed. *)
Lemma SaveOffer_value_too_long o w :
  varchar 20 (Source o) = None ->
  SaveOffer o w = (Some value_too_long, send (InsertOffer o) w).
Proof. intros Hs. unfold SaveOffer, insert_offer. now rewrite Hs. Qed.

(** So is every INSERT once the sequence has handed out its last id. *)
Lemma SaveOffer_sequence_exhausted o w :
  varchar 20 (Source o) <> None ->
  MaxInt32 <= offers_offer_id_seq (tables w) ->
  SaveOffer o w = (Some sequence_exhausted, send (InsertOffer o) w).
Proof.
  intros Hs Hmax. unfold SaveOffer, insert_offer.
  destruct (varchar 20 (Source o)); [|contradiction].
  destruct (Z.leb_spec MaxInt32 (offers_offer_id_seq (tables w))); [reflexivity | lia].
Qed.





End OfferStore.

(** ** The airport filters of ListQuotes *)

Section AirportFilters.

Implicit Types (w : World) (q : ListQuotesRequest) (l : list string).

Lemma append_assoc (a b c : string) : (a +:+ b) +:+ c = a +:+ (b +:+ c).
Proof.
  induction a as [|x a IH]; [reflexivity|].
  change (String x ((a +:+ b) +:+ c) = String x (a +:+ (b +:+ c))).
  now rewrite IH.
Qed.

Lemma strings_Join_cons e l sep :
  l <> [] -> strings_Join (e :: l) sep = e +:+ sep +:+ strings_Join l sep.
Proof. destruct l; [congruence | reflexivity]. Qed.

(** A list holding one code with a comma in it joins to the same text as the
    list holding its two halves. *)
Lemma strings_Join_comma a x y b :
  strings_Join (a ++ [x +:+ "," +:+ y] ++ b) "," =
  strings_Join (a ++ [x; y] ++ b) ",".
Proof.
  induction a as [|e a IH].
  - cbn [app]. destruct b as [|e' b].
    + cbn. reflexivity.
    + rewrite !strings_Join_cons by discriminate.
      now rewrite !append_assoc.
  - rewrite <- !app_comm_cons.
    rewrite !strings_Join_cons by (intros [_ Hn]%app_eq_nil; discriminate Hn).
    exact (f_equal (λ s, e +:+ "," +:+ s) IH).
Qed.

Lemma append_String c (a b : string) : String c a +:+ b = String c (a +:+ b).
Proof. reflexivity. Qed.

Lemma split_comma_String c s :
  Ascii.eqb c ","%char = false ->
  split_comma (String c s) =
    match split_comma s with
    | h :: t => String c h :: t
    | [] => [String c EmptyString]
    end.
Proof. intros Hc. simpl. now rewrite Hc. Qed.

Lemma split_comma_append x s :
  comma_free x = true ->
  split_comma (x +:+ "," +:+ s) = x :: split_comma s.
Proof.
  induction x as [|c x IH]; [reflexivity|].
  simpl comma_free. intros [Hc Hx]%andb_prop.
  apply negb_true_iff in Hc.
  rewrite append_String, (split_comma_String _ _ Hc).
  now rewrite (IH Hx).
Qed.

Lemma split_comma_free x : comma_free x = true -> split_comma x = [x].
Proof.
  induction x as [|c x IH]; [reflexivity|].
  simpl comma_free. intros [Hc Hx]%andb_prop.
  apply negb_true_iff in Hc.
  rewrite (split_comma_String _ _ Hc).
  now rewrite (IH Hx).
Qed.

(** Splitting undoes joining when no code holds a comma. *)
Lemma split_comma_Join l :
  l <> [] -> forallb comma_free l = true ->
  split_comma (strings_Join l ",") = l.
Proof.
  induction l as [|e l IH]; [congruence|]. intros _ [He Hl]%andb_prop.
  destruct l as [|e' l].
  - cbn. now apply split_comma_free.
  - rewrite strings_Join_cons by discriminate.
    rewrite split_comma_append by exact He.
    now rewrite IH.
Qed.

Lemma ListQuotes_by_join q q' w :
  strings_Join (Origins q') "," = strings_Join (Origins q) "," ->
  strings_Join (Destinations q') "," = strings_Join (Destinations q) "," ->
  StartDate q' = StartDate q -> EndDate q' = EndDate q ->
  Limit q' = Limit q -> Offset q' = Offset q ->
  ListQuotes q' w = ListQuotes q w.
Proof.
  intros Ho Hd Hs He Hl Hk. unfold ListQuotes.
  now rewrite Ho, Hd, Hs, He, Hl, Hk.
Qed.

(** C10. [ListQuotes] sees the origin and destination lists only through
    their comma-joins: requests that agree on the two joins (and on the other
    fields) get the same answer in the same world.  A list that joins to the
    empty string, such as the list of one empty string, switches the filter
    off: the condition passes every place, also one without a code, and the
    answer is that of the request with no list.  One element with a comma in
    it is the same as its two halves as two elements, and the query splits it
    into these. *)
Theorem ListQuotes_filter_is_the_join q w :
  (forall q',
     strings_Join (Origins q') "," = strings_Join (Origins q) "," ->
     strings_Join (Destinations q') "," = strings_Join (Destinations q) "," ->
     StartDate q' = StartDate q -> EndDate q' = EndDate q ->
     Limit q' = Limit q -> Offset q' = Offset q ->
     ListQuotes q' w = ListQuotes q w) /\
  (forall l, strings_Join l "," = "" ->
     ListQuotes (with_Origins l q) w = ListQuotes (with_Origins [] q) w /\
     ListQuotes (with_Destinations l q) w = ListQuotes (with_Destinations [] q) w /\
     forall code, code_passes (strings_Join l ",") code = true) /\
  strings_Join [""] "," = "" /\
  (forall a x y b,
     ListQuotes (with_Origins (a ++ [x +:+ "," +:+ y] ++ b) q) w =
       ListQuotes (with_Origins (a ++ [x; y] ++ b) q) w /\
     ListQuotes (with_Destinations (a ++ [x +:+ "," +:+ y] ++ b) q) w =
       ListQuotes (with_Destinations (a ++ [x; y] ++ b) q) w) /\
  (forall x y, comma_free x = true -> comma_free y = true ->
     string_to_array (strings_Join [x +:+ "," +:+ y] ",") = [x; y]).
Proof.
  split; [intros q'; apply ListQuotes_by_join|].
  split.
  { intros l Hl. split; [|split].
    - apply ListQuotes_by_join; cbn; try reflexivity. exact Hl.
    - apply ListQuotes_by_join; cbn; try reflexivity. exact Hl.
    - intros code. now rewrite Hl. }
  split; [reflexivity|].
  split.
  { intros a x y b. split; apply ListQuotes_by_join; cbn [with_Origins with_Destinations
      Origins Destinations StartDate EndDate Limit Offset]; try reflexivity;
      apply strings_Join_comma. }
  intros x y Hx Hy.
  change (strings_Join [x +:+ "," +:+ y] ",") with (x +:+ "," +:+ y).
  unfold string_to_array.
  destruct (String.eqb (x +:+ "," +:+ y) EmptyString) eqn:He.
  - apply String.eqb_eq in He. destruct x; discriminate He.
  - rewrite split_comma_append by exact Hx. now rewrite split_comma_free.
Qed.

End AirportFilters.

(** ** The query façade *)

Section QueryFacade.

Variable time_Parse : string -> string -> result Time.

Implicit Types (r : Request) (q : ListQuotesRequest).

Lemma strconv_Atoi_empty : strconv_Atoi "" = (0, Some (errorString "strconv.Atoi: invalid syntax")).
Proof. reflexivity. Qed.

Lemma FormValue_absent r key : Form r !! key = None -> FormValue r key = "".
Proof. intros Hk. unfold FormValue, Form_get. now rewrite Hk. Qed.

(** C7. [FromHTTP] fails exactly when [start] or [end] does not parse with
    the layout 2006-01-02, and then with one of the two parameter errors,
    which [HandleListQuotes] answers as 400 Bad Request without calling the
    store.  When it succeeds the request holds the two parsed dates, the
    [origin] and [dest] lists as given, the limit as given except that 0 (also
    what an absent limit reads as) becomes 100, and the offset as given, 0
    when absent. *)
Theorem FromHTTP_parses_and_defaults r :
  ((exists e, FromHTTP time_Parse r = Err e) <->
   (~ parses time_Parse (FormValue r "start") \/ ~ parses time_Parse (FormValue r "end"))) /\
  (forall e, FromHTTP time_Parse r = Err e ->
     (e = errorString "invalid 'start'" \/ e = errorString "invalid 'end'") /\
     forall (W : Type) (S : Store W) json_MarshalIndent (w : W),
       HandleListQuotes json_MarshalIndent time_Parse r w =
         {| response := http_Error (Error e) StatusBadRequest; stderr := []; world := w |}) /\
  (forall q, FromHTTP time_Parse r = Ok q ->
     time_Parse "2006-01-02" (FormValue r "start") = Ok (StartDate q) /\
     time_Parse "2006-01-02" (FormValue r "end") = Ok (EndDate q) /\
     Origins q = Form_get r "origin" /\
     Destinations q = Form_get r "dest" /\
     Limit q = (if fst (strconv_Atoi (FormValue r "limit")) =? 0 then 100
                else fst (strconv_Atoi (FormValue r "limit"))) /\
     Offset q = fst (strconv_Atoi (FormValue r "offset")) /\
     (Form r !! "limit" = None -> Limit q = 100) /\
     (fst (strconv_Atoi (FormValue r "limit")) = 0 -> Limit q = 100) /\
     (Form r !! "offset" = None -> Offset q = 0)).
Proof.
  unfold parses, HandleListQuotes, FromHTTP.
  destruct (time_Parse "2006-01-02" (FormValue r "start")) as [s|es] eqn:Hs.
  - destruct (time_Parse "2006-01-02" (FormValue r "end")) as [e|ee] eqn:He.
    + split; [|split].
      * split; [intros [? [=]]|].
        intros [Hn|Hn]; exfalso; apply Hn; eauto.
      * intros ? [=].
      * intros q [= <-]. cbn.
        repeat split; try reflexivity.
        -- intros Hl. now rewrite (FormValue_absent _ _ Hl).
        -- intros ->. reflexivity.
        -- intros Hk. now rewrite (FormValue_absent _ _ Hk).
    + split; [|split].
      * split; [|eauto]. intros _. right. intros [t [=]].
      * intros e [= <-]. split; [now right|]. reflexivity.
      * intros q [=].
  - split; [|split].
    + split; [|eauto]. intros _. left. intros [t [=]].
    + intros e [= <-]. split; [now left|]. reflexivity.
    + intros q [=].
Qed.

End QueryFacade.

(** [GET /quotes?start=2024-01-01&end=2024-01-31] with no limit and no
    offset: the first 100 rows of January 2024. *)
Example FromHTTP_defaults_example :
  FromHTTP sample_time_Parse (get_quotes []) =
    Ok {| StartDate := 63839664000000000000; EndDate := 63842256000000000000;
          Origins := []; Destinations := []; Limit := 100; Offset := 0 |}.
Proof. vm_compute. reflexivity. Qed.

Example FromHTTP_invalid_start_example :
  FromHTTP sample_time_Parse
    {| Form := <["start" := ["2024-02-30"]]> (<["end" := ["2024-03-01"]]> ∅);
       Body := {| tokens := []; scan_err := None |} |} =
    Err (errorString "invalid 'start'").
Proof. vm_compute. reflexivity. Qed.

(** ** The handlers, over any store *)

Section Handlers.

Context {W : Type} {S : transitdb.Store W}.
Variable json_Unmarshal : string -> result Offer.
Variable json_MarshalIndent : list Quote -> result string.
Variable time_Parse : string -> string -> result Time.

Implicit Types (w : W) (lines : list string) (r : Request).

Lemma addOffers_loop_spec lines err line saved w :
  (exists w', saved_all json_Unmarshal lines w w' /\
     addOffers_loop json_Unmarshal lines err line saved w =
       finishes err (saved + Z.of_nat (length lines)) w') \/
  (exists pre l post w1,
     lines = pre ++ l :: post /\ saved_all json_Unmarshal pre w w1 /\
     stops_at json_Unmarshal l (line + Z.of_nat (length pre)) w1
       (addOffers_loop json_Unmarshal lines err line saved w)).
Proof.
  revert line saved w.
  induction lines as [|l lines IH]; intros line saved w.
  - left. exists w. split; [constructor|].
    cbn [length]. rewrite Z.add_0_r. unfold finishes. cbn.
    destruct err; reflexivity.
  - cbn [addOffers_loop].
    destruct (json_Unmarshal l) as [o|e] eqn:Hj.
    2:{ right. exists [], l, lines, w. split; [reflexivity|]. split; [constructor|].
        unfold stops_at. rewrite Hj. cbn [length]. now rewrite Z.add_0_r. }
    destruct (Validate o) as [e|] eqn:Hv.
    { right. exists [], l, lines, w. split; [reflexivity|]. split; [constructor|].
      unfold stops_at. rewrite Hj, Hv. cbn [length]. now rewrite Z.add_0_r. }
    destruct (transitdb.SaveOffer o w) as [[e|] w1] eqn:Hs.
    { right. exists [], l, lines, w. split; [reflexivity|]. split; [constructor|].
      unfold stops_at. rewrite Hj, Hv. cbn [length]. exists e, w1. split; [exact Hs|].
      reflexivity. }
    destruct (IH (line + 1) (saved + 1) w1) as [(w' & Hall & Hrun) | (pre & l' & post & w2 & -> & Hall & Hstop)].
    + left. exists w'. split; [econstructor; eauto|].
      rewrite Hrun. f_equal. cbn [length]. lia.
    + right. exists (l :: pre), l', post, w2.
      split; [reflexivity|]. split; [econstructor; eauto|].
      replace (line + Z.of_nat (length (l :: pre)))
        with (line + 1 + Z.of_nat (length pre)) by (cbn [length]; lia).
      exact Hstop.
Qed.

(** C4, as the code has it.  [HandleAddOffers] takes the lines in order.
    Either every line decodes, validates and is saved, one after the other,
    and the answer is [saved N records] with [N] the number of lines (or,
    when the scanner ends in an error, the plain 500).  Or there is a first
    line that does not: the lines before it were saved in order and stay
    saved, no later line is looked at, and the answer is

    - 400 [line n: bad json] when the line does not decode,
    - 400 [line n: reason] when it does not validate,
    - 500 [Internal Server Error], with the store's error on stderr, and
      neither line number nor reason in the answer, when the store refuses
      it,

    with [n] the line's 1-based number. *)
Theorem HandleAddOffers_first_failure r w :
  (exists w',
     saved_all json_Unmarshal (tokens (Body r)) w w' /\
     HandleAddOffers json_Unmarshal r w =
       finishes (scan_err (Body r)) (Z.of_nat (length (tokens (Body r)))) w') \/
  (exists pre l post w1,
     tokens (Body r) = pre ++ l :: post /\
     saved_all json_Unmarshal pre w w1 /\
     stops_at json_Unmarshal l (Z.of_nat (length pre) + 1) w1 (HandleAddOffers json_Unmarshal r w)).
Proof.
  unfold HandleAddOffers.
  destruct (addOffers_loop_spec (tokens (Body r)) (scan_err (Body r)) 1 0 w)
    as [(w' & Hall & Hrun) | (pre & l & post & w1 & Heq & Hall & Hstop)].
  - left. exists w'. split; [exact Hall|]. rewrite Hrun. reflexivity.
  - right. exists pre, l, post, w1. split; [exact Heq|]. split; [exact Hall|].
    now rewrite Z.add_comm.
Qed.

(** What each handler answers when the store returns an error. *)
Lemma HandleAddOffers_store_error l lines err o e w w' :
  json_Unmarshal l = Ok o -> Validate o = None ->
  transitdb.SaveOffer o w = (Some e, w') ->
  HandleAddOffers json_Unmarshal {| Form := ∅; Body := {| tokens := l :: lines; scan_err := err |} |} w =
    {| response := http_Error "Internal Server Error" StatusInternalServerError;
       stderr := [log_error e]; world := w' |}.
Proof.
  intros Hj Hv Hs. unfold HandleAddOffers. cbn. now rewrite Hj, Hv, Hs.
Qed.

Lemma HandleCheapestPerRoute_store_error t0 t1 r e w w' :
  transitdb.CheapestPerRoute t0 (t1 + thirty_days) w = (Err e, w') ->
  HandleCheapestPerRoute t0 t1 r w =
    {| response := http_Error (Error e) StatusInternalServerError;
       stderr := [log_error e]; world := w' |}.
Proof. intros Hs. unfold HandleCheapestPerRoute. now rewrite Hs. Qed.

Lemma HandleListQuotes_store_error r q e w w' :
  FromHTTP time_Parse r = Ok q ->
  transitdb.ListQuotes q w = (Err e, w') ->
  HandleListQuotes json_MarshalIndent time_Parse r w =
    {| response := http_Error (Error e) StatusInternalServerError;
       stderr := [log_error e]; world := w' |}.
Proof. intros Hq Hs. unfold HandleListQuotes. now rewrite Hq, Hs. Qed.

End Handlers.

(** ** Concrete runs of the handlers *)

(** The scenario of two lines, the second with cost 0: the answer cites line
    2 and the reason, and line 1 is in the table. *)
Example HandleAddOffers_second_line_invalid :
  let out := sample_addOffers (post_lines ["LGB-JFK 200"; "LGB-JFK 0"]) sample_world in
  response out = http_Error "line 2: missing cost" StatusBadRequest /\
  length (offers (tables (world out))) = 1%nat.
Proof. vm_compute. split; reflexivity. Qed.

Example HandleAddOffers_all_saved :
  let out := sample_addOffers (post_lines ["LGB-JFK 200"; "LGB-JFK 200"; "LGB-JFK 200"]) sample_world in
  RBody (response out) = "saved 3 records" +:+ nl /\
  length (offers (tables (world out))) = 3%nat.
Proof. vm_compute. split; reflexivity. Qed.

(** C4, the claim as stated fails: a line the store refuses is answered with
    the plain 500, the same whether it is line 1 or line 2; the line number
    and the reason (here the unknown origin) reach stderr only. *)
Lemma HandleAddOffers_save_failure_cites_no_line :
  let out1 := sample_addOffers (post_lines ["XXX-JFK 200"]) sample_world in
  let out2 := sample_addOffers (post_lines ["LGB-JFK 200"; "XXX-JFK 200"]) sample_world in
  response out1 = http_Error "Internal Server Error" StatusInternalServerError /\
  response out2 = response out1 /\
  stderr out1 = ["[error] unknown origin airport " +:+ dq +:+ "XXX" +:+ dq +:+ nl] /\
  length (offers (tables (world out2))) = 1%nat.
Proof. vm_compute. repeat split; reflexivity. Qed.

(** C3, at concrete inputs.  With the database gone, [HandleAddOffers]
    answers the plain status text, while [HandleCheapestPerRoute] and
    [HandleListQuotes] put the driver's error text in the response body.
    On the PostgreSQL store, [GET /quotes?...&limit=-1] answers with the
    server's own message. *)
Theorem query_handlers_echo_store_error :
  RBody (response (HandleAddOffers (S := broken_Store) sample_Unmarshal
                     (post_lines ["LGB-JFK 200"]) tt)) =
    "Internal Server Error" +:+ nl /\
  RBody (response (HandleCheapestPerRoute (S := broken_Store) 0 0 (post_lines []) tt)) =
    "dial tcp 10.0.0.5:5432: connect: connection refused" +:+ nl /\
  RBody (response (HandleListQuotes (S := broken_Store) sample_MarshalIndent
                     sample_time_Parse (get_quotes []) tt)) =
    "dial tcp 10.0.0.5:5432: connect: connection refused" +:+ nl /\
  response (HandleListQuotes (S := pg_Store) sample_MarshalIndent
              sample_time_Parse (get_quotes ["-1"]) sample_world) =
    http_Error "pq: LIMIT must not be negative" StatusInternalServerError.
Proof. vm_compute. repeat split; reflexivity. Qed.


(** ** The SQL building blocks *)

Section OrderByFacts.

Context {A : Type} (key : A -> Z).

Lemma insert_by_Permutation x (l : list A) : insert_by key x l ≡ₚ x :: l.
Proof.
  induction l as [|y l IH]; [reflexivity|]. simpl.
  destruct (key x <=? key y); [reflexivity|].
  rewrite IH. apply Permutation_swap.
Qed.

Lemma order_by_Permutation (l : list A) : order_by key l ≡ₚ l.
Proof.
  induction l as [|x l IH]; [reflexivity|].
  unfold order_by in *. simpl. rewrite insert_by_Permutation. now rewrite IH.
Qed.

Lemma elem_of_order_by x (l : list A) : x ∈ order_by key l <-> x ∈ l.
Proof. now rewrite order_by_Permutation. Qed.

Lemma length_order_by (l : list A) : length (order_by key l) = length l.
Proof. now rewrite order_by_Permutation. Qed.

Lemma insert_by_ascending x (l : list A) :
  ascending key l -> ascending key (insert_by key x l).
Proof.
  unfold ascending. induction l as [|y l IH]; intros Hs; simpl.
  - constructor; [constructor | constructor].
  - destruct (key x <=? key y) eqn:Hxy.
    + apply Z.leb_le in Hxy. constructor; [exact Hs|].
      constructor; [exact Hxy|].
      apply StronglySorted_inv in Hs as [_ Hall].
      eapply Forall_impl; [exact Hall|]. intros z Hz. cbn in *. lia.
    + apply Z.leb_gt in Hxy.
      apply StronglySorted_inv in Hs as [Hs Hall].
      constructor; [now apply IH|].
      rewrite insert_by_Permutation. constructor; [lia | exact Hall].
Qed.

Lemma order_by_ascending (l : list A) : ascending key (order_by key l).
Proof.
  induction l as [|x l IH]; [constructor|].
  unfold order_by in *. simpl. now apply insert_by_ascending.
Qed.

End OrderByFacts.

Section Aggregates.

Lemma least_unique m m' P : least m P -> least m' P -> m = m'.
Proof. intros [H1 H2] [H3 H4]. apply Z.le_antisymm; auto. Qed.

Lemma foldr_min_least x (l : list Z) : least (foldr Z.min x l) (λ v, v ∈ x :: l).
Proof.
  induction l as [|y l [IHin IHle]]; simpl.
  - split; [left|]. intros y Hy. apply list_elem_of_singleton in Hy. lia.
  - split.
    + destruct (Z.min_spec y (foldr Z.min x l)) as [[_ ->] | [_ ->]].
      * right. left.
      * apply elem_of_cons in IHin as [-> | Hin]; [left | right; right; exact Hin].
    + intros z Hz.
      assert (Hz' : z = y \/ z ∈ x :: l).
      { apply elem_of_cons in Hz as [-> | Hz]; [right; left|].
        apply elem_of_cons in Hz as [-> | Hz]; [now left | right; right; exact Hz]. }
      destruct Hz' as [-> | Hz']; [lia|]. specialize (IHle _ Hz'). lia.
Qed.

(** [MIN] returns the least value of the rows, and NULL only for no row. *)
Lemma MIN_least (l : list Z) m : MIN l = Some m <-> least m (λ v, v ∈ l).
Proof.
  destruct l as [|x l]; simpl.
  - split; [discriminate|]. intros [Hin _]. inversion Hin.
  - split.
    + intros [= <-]. apply foldr_min_least.
    + intros Hm. f_equal. eapply least_unique; [apply foldr_min_least | exact Hm].
Qed.

Lemma MIN_is_Some (l : list Z) x : x ∈ l -> is_Some (MIN l).
Proof. destruct l; [inversion 1 | eauto]. Qed.

End Aggregates.

Section CommonTableExpressions.

Implicit Types (t : Tables) (m : list OfferRow) (x : OfferRow).

Lemma least_ext (z : Z) (P Q : Z -> Prop) :
  least z P -> (forall v, P v <-> Q v) -> least z Q.
Proof.
  intros [H1 H2] HPQ. split; [now apply HPQ|].
  intros y Hy. now apply H2, HPQ.
Qed.

Lemma elem_of_matching_offers t now p1 p2 p3 p4 x :
  x ∈ matching_offers t now p1 p2 p3 p4 <-> candidate t now p1 p2 p3 p4 x.
Proof.
  unfold matching_offers, candidate. rewrite list_elem_of_bind. split.
  - intros (o & Hx & Ho).
    apply list_elem_of_bind in Hx as (origin & Hx & Horigin).
    apply list_elem_of_bind in Hx as (dest & Hx & Hdest).
    apply list_elem_of_filter in Horigin as [Hoid Horigin].
    apply list_elem_of_filter in Hdest as [Hdid Hdest].
    destruct (BETWEEN (start_time o) p1 p2) eqn:Hb; [|inversion Hx].
    destruct (code_passes p3 (iata_code origin)) eqn:H3; [|inversion Hx].
    destruct (code_passes p4 (iata_code dest)) eqn:H4; [|inversion Hx].
    destruct (expires_after (expires_at o) now) eqn:He; [|inversion Hx].
    cbn in Hx. apply list_elem_of_singleton in Hx as ->.
    split; [exact Ho|]. split; [exact Hb|]. split; [exact He|]. split; eauto.
  - intros (Ho & Hb & He & (origin & Horigin & Hoid & H3) & (dest & Hdest & Hdid & H4)).
    exists x. split; [|exact Ho].
    apply list_elem_of_bind. exists origin. split; [|apply list_elem_of_filter; tauto].
    apply list_elem_of_bind. exists dest. split; [|apply list_elem_of_filter; tauto].
    rewrite Hb, H3, H4, He. cbn. left.
Qed.

(** [min_offers] holds, per route with a row, the least cost on the route. *)
Lemma elem_of_min_offers m o d c :
  (o, d, c) ∈ min_offers m <->
  least c (λ v, exists x, x ∈ m /\ route_of x = (o, d) /\ cost x = v).
Proof.
  assert (Hgroup : forall k v,
            v ∈ cost <$> filter (λ x, route_of x = k) m <->
            exists x, x ∈ m /\ route_of x = k /\ cost x = v).
  { intros k v. rewrite list_elem_of_fmap. split.
    - intros (x & -> & Hx). apply list_elem_of_filter in Hx. exists x. tauto.
    - intros (x & Hx & Hk & <-). exists x. split; [reflexivity|].
      apply list_elem_of_filter. tauto. }
  unfold min_offers. rewrite list_elem_of_omap. split.
  - intros ([o' d'] & _ & Hrow). cbn in Hrow.
    destruct (MIN (cost <$> filter (λ x, route_of x = (o', d')) m)) as [c'|] eqn:Hmin;
      [|discriminate].
    cbn in Hrow. injection Hrow as -> -> ->.
    apply MIN_least in Hmin. apply (least_ext _ _ _ Hmin). intros v. apply Hgroup.
  - intros Hleast. exists (o, d). split.
    + destruct Hleast as [(x & Hx & Hk & _) _].
      apply elem_of_remove_dups, list_elem_of_fmap. exists x. auto.
    + assert (Hmin : MIN (cost <$> filter (λ x, route_of x = (o, d)) m) = Some c).
      { apply MIN_least. apply (least_ext _ _ _ Hleast). intros v. symmetry. apply Hgroup. }
      cbn. now rewrite Hmin.
Qed.

(** [next_min_offer] holds, per route with a row, the least cost on the
    route and the least start among the rows of the route with that cost. *)
Lemma elem_of_next_min_offer m o d c s :
  (o, d, c, s) ∈ next_min_offer m <->
  least c (λ v, exists x, x ∈ m /\ route_of x = (o, d) /\ cost x = v) /\
  least s (λ v, exists x, x ∈ m /\ route_of x = (o, d) /\ cost x = c /\ start_time x = v).
Proof.
  unfold next_min_offer.
  set (joined := min_offers m ≫= _).
  assert (Hjoined : forall k x,
            (k, x) ∈ joined <->
            k ∈ min_offers m /\ x ∈ m /\ (origin_id x, dest_id x, cost x) = k).
  { intros k x. unfold joined. rewrite list_elem_of_bind. split.
    - intros (k' & Hj & Hk').
      apply list_elem_of_bind in Hj as (x' & Hj & Hx').
      apply list_elem_of_singleton in Hj. injection Hj as -> ->.
      apply list_elem_of_filter in Hx'. tauto.
    - intros (Hk & Hx & Hkey). exists k. split; [|exact Hk].
      apply list_elem_of_bind. exists x. split; [left|].
      apply list_elem_of_filter. tauto. }
  assert (Hgroup : forall k v,
            v ∈ (λ j : Z * Z * Z * OfferRow, start_time j.2) <$> filter (λ j, j.1 = k) joined <->
            k ∈ min_offers m /\
            exists x, x ∈ m /\ (origin_id x, dest_id x, cost x) = k /\ start_time x = v).
  { intros k v. rewrite list_elem_of_fmap. split.
    - intros ([k' x] & -> & Hj). apply list_elem_of_filter in Hj as [Hk Hj].
      cbn in Hk. subst k'. apply Hjoined in Hj as (Hk & Hx & Hkey).
      split; [exact Hk|]. exists x. auto.
    - intros (Hk & x & Hx & Hkey & <-). exists (k, x). split; [reflexivity|].
      apply list_elem_of_filter. split; [reflexivity|]. apply Hjoined. auto. }
  rewrite list_elem_of_omap. split.
  - intros (k & _ & Hrow). cbn in Hrow.
    destruct (MIN _) as [s'|] eqn:Hmin; [|discriminate].
    cbn in Hrow. injection Hrow as -> ->.
    apply MIN_least in Hmin.
    assert (Hk : (o, d, c) ∈ min_offers m).
    { destruct Hmin as [Hin _]. apply Hgroup in Hin. tauto. }
    split; [now apply elem_of_min_offers|].
    apply (least_ext _ _ _ Hmin). intros v. rewrite Hgroup. split.
    + intros (_ & x & Hx & [= Ho Hd Hc] & Hv). exists x. unfold route_of. now subst.
    + intros (x & Hx & [= Ho Hd] & Hc & Hv). split; [exact Hk|].
      exists x. now subst.
  - intros [Hc Hs]. apply elem_of_min_offers in Hc.
    exists (o, d, c).
    assert (Hmin : MIN ((λ j : Z * Z * Z * OfferRow, start_time j.2) <$>
                          filter (λ j, j.1 = (o, d, c)) joined) = Some s).
    { apply MIN_least. apply (least_ext _ _ _ Hs). intros v. rewrite Hgroup. split.
      - intros (x & Hx & [= Ho Hd] & Hcx & Hv). split; [exact Hc|].
        exists x. now subst.
      - intros (_ & x & Hx & [= Ho Hd Hcx] & Hv). exists x. unfold route_of. now subst. }
    split.
    + destruct Hs as [(x & Hx & [= Ho Hd] & Hcx & _) _].
      apply elem_of_remove_dups, list_elem_of_fmap. exists (o, d, c, x).
      split; [reflexivity|]. apply Hjoined. subst. auto.
    + cbn. now rewrite Hmin.
Qed.

(** [cheapest] holds, per route with a row in the window, the least start
    and the least cost, each taken over all the rows of the route. *)
Lemma elem_of_cheapest t p1 p2 o d s c :
  (o, d, s, c) ∈ cheapest t p1 p2 <->
  least s (λ v, exists x, x ∈ offers t /\ BETWEEN (start_time x) p1 p2 = true /\
                          route_of x = (o, d) /\ start_time x = v) /\
  least c (λ v, exists x, x ∈ offers t /\ BETWEEN (start_time x) p1 p2 = true /\
                          route_of x = (o, d) /\ cost x = v).
Proof.
  unfold cheapest.
  set (rows := filter _ (offers t)).
  assert (Hrows : forall x, x ∈ rows <-> x ∈ offers t /\ BETWEEN (start_time x) p1 p2 = true).
  { intros x. unfold rows. rewrite list_elem_of_filter.
    rewrite Is_true_true. tauto. }
  assert (Hgroup : forall (f : OfferRow -> Z) k v,
            v ∈ f <$> filter (λ x, route_of x = k) rows <->
            exists x, x ∈ offers t /\ BETWEEN (start_time x) p1 p2 = true /\
                      route_of x = k /\ f x = v).
  { intros f k v. rewrite list_elem_of_fmap. split.
    - intros (x & -> & Hx). apply list_elem_of_filter in Hx as [Hk Hx].
      apply Hrows in Hx. exists x. tauto.
    - intros (x & Hx & Hb & Hk & <-). exists x. split; [reflexivity|].
      apply list_elem_of_filter. split; [exact Hk|]. apply Hrows. tauto. }
  rewrite list_elem_of_omap. split.
  - intros ([o' d'] & _ & Hrow). cbn in Hrow.
    destruct (MIN (start_time <$> _)) as [s'|] eqn:Hs; [|discriminate].
    destruct (MIN (cost <$> _)) as [c'|] eqn:Hc; [|discriminate].
    cbn in Hrow. injection Hrow as -> -> -> ->.
    apply MIN_least in Hs, Hc. split.
    + apply (least_ext _ _ _ Hs). intros v. apply Hgroup.
    + apply (least_ext _ _ _ Hc). intros v. apply Hgroup.
  - intros [Hs Hc]. exists (o, d). split.
    + destruct Hs as [(x & Hx & Hb & Hk & _) _].
      apply elem_of_remove_dups, list_elem_of_fmap. exists x.
      split; [auto|]. apply Hrows. tauto.
    + assert (Hs' : MIN (start_time <$> filter (λ x, route_of x = (o, d)) rows) = Some s).
      { apply MIN_least. apply (least_ext _ _ _ Hs). intros v. symmetry. apply Hgroup. }
      assert (Hc' : MIN (cost <$> filter (λ x, route_of x = (o, d)) rows) = Some c).
      { apply MIN_least. apply (least_ext _ _ _ Hc). intros v. symmetry. apply Hgroup. }
      cbn. rewrite Hs'. cbn. now rewrite Hc'.
Qed.

End CommonTableExpressions.

(** ** ListQuotes: what a returned quote is *)

Section QuoteRows.

Implicit Types (t : Tables) (m : list OfferRow) (x : OfferRow) (q : Quote).

(** The rows of the final SELECT are the quotes of the rows of
    [next_min_offer], whenever the CTE was computed from rows of [offers]. *)
Lemma elem_of_selected_quotes t m q :
  (forall x, x ∈ m -> x ∈ offers t) ->
  q ∈ select_quote <$> quote_sources t m <->
  exists o d c s, (o, d, c, s) ∈ next_min_offer m /\ quote_of_route t o d c s q.
Proof.
  intros Hm. rewrite list_elem_of_fmap. unfold quote_sources, quote_of_route. split.
  - intros (j & -> & Hj).
    apply list_elem_of_bind in Hj as (n & Hj & Hn).
    apply list_elem_of_bind in Hj as (x & Hj & Hx).
    apply list_elem_of_bind in Hj as (dest & Hj & Hdest).
    apply list_elem_of_bind in Hj as (origin & Hj & Horigin).
    apply list_elem_of_singleton in Hj as ->.
    apply list_elem_of_filter in Hx as [Hkey Hx].
    apply list_elem_of_filter in Hdest as [Hd Hdest].
    apply list_elem_of_filter in Horigin as [Ho Horigin].
    destruct n as [[[o d] c] s]. injection Hkey as <- <- <- <-.
    exists (origin_id x), (dest_id x), (cost x), (start_time x).
    split; [exact Hn|]. exists origin, dest. cbn. auto 10.
  - intros (o & d & c & s & Hn & origin & dest & Horigin & Ho & Hdest & Hd & ->).
    pose proof Hn as Hn'.
    apply elem_of_next_min_offer in Hn' as [_ [(x & Hx & [= Hxo Hxd] & Hxc & Hxs) _]].
    exists (o, d, c, s, x, dest, origin). split; [reflexivity|].
    apply list_elem_of_bind. exists (o, d, c, s). split; [|exact Hn].
    apply list_elem_of_bind. exists x. split;
      [|apply list_elem_of_filter; split; [congruence | now apply Hm]].
    apply list_elem_of_bind. exists dest. split;
      [|apply list_elem_of_filter; split; [congruence | exact Hdest]].
    apply list_elem_of_bind. exists origin. split;
      [|apply list_elem_of_filter; split; [congruence | exact Horigin]].
    left.
Qed.

Lemma matching_offers_in_offers t now p1 p2 p3 p4 x :
  x ∈ matching_offers t now p1 p2 p3 p4 -> x ∈ offers t.
Proof. intros Hx. apply elem_of_matching_offers in Hx. apply Hx. Qed.

Lemma elem_of_ordered_quotes t now p1 p2 p3 p4 q :
  q ∈ ordered_quotes t now p1 p2 p3 p4 <->
  exists o d c s,
    (o, d, c, s) ∈ next_min_offer (matching_offers t now p1 p2 p3 p4) /\
    quote_of_route t o d c s q.
Proof.
  unfold ordered_quotes. rewrite elem_of_order_by.
  apply elem_of_selected_quotes. intros x. apply matching_offers_in_offers.
Qed.

Lemma limit_offset_Ok {A : Type} (n k : Z) (rows page : list A) :
  limit_offset n k rows = Ok page ->
  0 <= n /\ 0 <= k /\ page = take (Z.to_nat n) (drop (Z.to_nat k) rows).
Proof.
  unfold limit_offset.
  destruct (k <? 0) eqn:Hk; [discriminate|].
  destruct (n <? 0) eqn:Hn; [discriminate|].
  intros [= <-]. apply Z.ltb_ge in Hn, Hk. auto.
Qed.

Lemma elem_of_page {A : Type} (n k : Z) (rows page : list A) a :
  limit_offset n k rows = Ok page -> a ∈ page -> a ∈ rows.
Proof.
  intros (_ & _ & ->)%limit_offset_Ok Ha.
  apply (subseteq_drop (Z.to_nat k) rows), (subseteq_take (Z.to_nat n) _), Ha.
Qed.

End QuoteRows.

(** ** ListQuotes: pagination *)

Section Pagination.

Implicit Types (w : World) (q : ListQuotesRequest).

Lemma order_by_sorts_by {A : Type} (key : A -> Z) (rows : list A) :
  sorts_by key rows (order_by key rows).
Proof.
  split; [symmetry; apply order_by_Permutation | apply order_by_ascending].
Qed.









End Pagination.

(** ** ListQuotes: offers without an expiration *)

Section NullExpiration.

Implicit Types (w : World) (o : Offer) (t : Tables) (x : OfferRow).

Lemma bind_nil_all {A B : Type} (f : A -> list B) (l : list A) :
  (forall a, f a = []) -> l ≫= f = [].
Proof.
  intros Hf. induction l as [|a l IH]; [reflexivity|].
  cbn. now rewrite Hf, IH.
Qed.

(** A row with a NULL expiration adds nothing to [matching_offers]. *)
Lemma matching_offers_snoc_null t x id now p1 p2 p3 p4 :
  expires_at x = None ->
  matching_offers {| places := places t; offers := offers t ++ [x];
                     offers_offer_id_seq := id |} now p1 p2 p3 p4 =
  matching_offers t now p1 p2 p3 p4.
Proof.
  intros Hx. unfold matching_offers. cbn [offers places].
  rewrite bind_app. cbn [mbind list_bind]. rewrite app_nil_r.
  rewrite (bind_nil_all _ (filter _ (places t))); [apply app_nil_r|].
  intros origin. apply bind_nil_all. intros dest.
  rewrite Hx. cbn. now rewrite andb_false_r.
Qed.

(** What a successful [SaveOffer] does to the tables. *)
Lemma SaveOffer_Ok o w :
  fst (SaveOffer o w) = None ->
  exists x,
    tables (snd (SaveOffer o w)) =
      {| places := places (tables w); offers := offers (tables w) ++ [x];
         offers_offer_id_seq := offers_offer_id_seq (tables w) + 1 |} /\
    scalar_place_id (tables w) (OriginAirport o) = Some (origin_id x) /\
    scalar_place_id (tables w) (DestinationAirport o) = Some (dest_id x) /\
    cost x = Cost o /\
    start_time x = AvailableFrom o /\
    expires_at x = NullTime (ExpiresAt o) (negb (IsZero (ExpiresAt o))).
Proof.
  unfold SaveOffer, insert_offer.
  destruct (varchar 20 (Source o)) as [source_|]; [|discriminate].
  destruct (MaxInt32 <=? offers_offer_id_seq (tables w)); [discriminate|].
  destruct (scalar_place_id (tables w) (OriginAirport o)) as [oid|]; [|discriminate].
  destruct (scalar_place_id (tables w) (DestinationAirport o)) as [did|]; [|discriminate].
  destruct (IsZero (AvailableFrom o)); [discriminate|].
  cbn. intros _. eexists. split; [reflexivity|]. cbn. auto.
Qed.

(** [SaveOffer] leaves the server's clock alone. *)
Lemma SaveOffer_NOW o w : NOW (snd (SaveOffer o w)) = NOW w.
Proof.
  unfold SaveOffer. destruct (insert_offer _ _ _ _ _ _ _ _ _) as [[[msg|c col msg]|] t];
    cbn; repeat match goal with |- context [if ?b then _ else _] => destruct b end;
    reflexivity.
Qed.

(** The FROM clause of the final SELECT after one more offer [x]: the rows
    it had, and the rows it draws from [x]. *)
Lemma quote_sources_snoc t x id m :
  quote_sources {| places := places t; offers := offers t ++ [x];
                   offers_offer_id_seq := id |} m ≡ₚ
  quote_sources t m ++
    (n ← filter (λ n, (origin_id x, dest_id x, cost x, start_time x) = n)
                (next_min_offer m);
     dest ← filter (λ p, place_id p = dest_id x) (places t);
     origin ← filter (λ p, place_id p = origin_id x) (places t);
     [(n, x, dest, origin)]).
Proof.
  unfold quote_sources. cbn [offers places].
  induction (next_min_offer m) as [|n l IH]; [reflexivity|].
  rewrite !bind_cons, IH, filter_app, bind_app, filter_cons, filter_nil.
  destruct (decide ((origin_id x, dest_id x, cost x, start_time x) = n)) as [Hn | Hn].
  - rewrite (filter_cons_True _ _ _ Hn), bind_cons. cbn [mbind list_bind].
    rewrite app_nil_r, <- !app_assoc. f_equiv.
    apply Permutation_app_swap_app.
  - rewrite (filter_cons_False _ _ _ Hn). cbn [mbind list_bind].
    now rewrite app_nil_r, <- !app_assoc.
Qed.

(** C9, amended.  Let [o] be saved with a zero [ExpiresAt], as the row [x].
    The row holds NULL in [expires_at] and is no candidate of any
    [ListQuotes] query, whatever the evaluation time, the window and the
    filters: [matching_offers], and with it the cost and the date of every
    route, is the same with and without it, and no NULL expiration is ever a
    candidate.  But the final SELECT joins [next_min_offer] with the table
    [offers], so [x] is read there: the rows selected afterwards are the rows
    selected before together with the rows drawn from [x].  These are none
    unless [x] has the route, the cost and the start of a selected offer, and
    then each of them repeats a quote that was selected before.  So every
    quote the database may return afterwards is one of the quotes selected
    without [x], and it may be returned once more. *)
Theorem ListQuotes_ignores_null_expiration o w :
  IsZero (ExpiresAt o) = true ->
  fst (SaveOffer o w) = None ->
  let t := tables w in
  let t' := tables (snd (SaveOffer o w)) in
  exists x,
    (offers t' = offers t ++ [x] /\ places t' = places t /\ expires_at x = None) /\
    (forall now p1 p2 p3 p4,
       matching_offers t' now p1 p2 p3 p4 = matching_offers t now p1 p2 p3 p4) /\
    (forall now p1 p2 p3 p4 y,
       y ∈ matching_offers t' now p1 p2 p3 p4 -> expires_at y <> None) /\
    (forall now p1 p2 p3 p4,
       let m := matching_offers t now p1 p2 p3 p4 in
       select_quote <$> quote_sources t' m ≡ₚ
         (select_quote <$> quote_sources t m) ++ rows_through t m x /\
       (forall q, q ∈ rows_through t m x -> q ∈ select_quote <$> quote_sources t m) /\
       ((origin_id x, dest_id x, cost x, start_time x) ∉ next_min_offer m ->
        rows_through t m x = [])) /\
    (forall q r page quote,
       may_return q (snd (SaveOffer o w)) r -> r = Ok page -> quote ∈ page ->
       quote ∈ selected_rows q w).
Proof.
  intros Hz Hok. cbn zeta.
  destruct (SaveOffer_Ok o w Hok) as (x & Ht' & _ & _ & _ & _ & Hexp).
  rewrite Hz in Hexp. cbn in Hexp.
  assert (Hm : forall now p1 p2 p3 p4,
            matching_offers (tables (snd (SaveOffer o w))) now p1 p2 p3 p4 =
            matching_offers (tables w) now p1 p2 p3 p4).
  { intros. rewrite Ht'. now apply matching_offers_snoc_null. }
  assert (Hperm : forall m,
            select_quote <$> quote_sources (tables (snd (SaveOffer o w))) m ≡ₚ
            (select_quote <$> quote_sources (tables w) m) ++ rows_through (tables w) m x).
  { intros m. rewrite Ht'. unfold rows_through. rewrite <- fmap_app.
    apply fmap_Permutation, quote_sources_snoc. }
  assert (Hold : forall now p1 p2 p3 p4 q,
            q ∈ rows_through (tables w) (matching_offers (tables w) now p1 p2 p3 p4) x ->
            q ∈ select_quote <$>
                  quote_sources (tables w) (matching_offers (tables w) now p1 p2 p3 p4)).
  { intros now p1 p2 p3 p4 q Hq.
    assert (Hq' : q ∈ select_quote <$>
                        quote_sources (tables (snd (SaveOffer o w)))
                          (matching_offers (tables w) now p1 p2 p3 p4)).
    { rewrite Hperm. apply elem_of_app. now right. }
    apply elem_of_selected_quotes in Hq' as (o' & d & c & s & Hn & Hq').
    2:{ intros y Hy. apply matching_offers_in_offers in Hy.
        rewrite Ht'. cbn. apply elem_of_app. now left. }
    apply elem_of_selected_quotes; [intros y; apply matching_offers_in_offers|].
    exists o', d, c, s. split; [exact Hn|].
    unfold quote_of_route in *. now rewrite Ht' in Hq'. }
  exists x. split; [rewrite Ht'; auto|]. split; [exact Hm|]. split; [|split].
  - intros now p1 p2 p3 p4 y Hy.
    apply elem_of_matching_offers in Hy as (_ & _ & He & _).
    destruct (expires_at y); [discriminate | discriminate He].
  - intros now p1 p2 p3 p4. cbn zeta. split; [apply Hperm|]. split; [apply Hold|].
    intros Hnot. unfold rows_through.
    destruct (filter _ (next_min_offer _)) as [|n l] eqn:Hf; [reflexivity|].
    exfalso. apply Hnot.
    assert (Hn : n ∈ filter (λ n, (origin_id x, dest_id x, cost x, start_time x) = n)
                   (next_min_offer (matching_offers (tables w) now p1 p2 p3 p4)))
      by (rewrite Hf; left).
    apply list_elem_of_filter in Hn as [-> Hn]. exact Hn.
  - intros q r page quote (sorted & [Hp _] & ->) Hpage Hquote.
    pose proof (elem_of_page _ _ _ _ _ Hpage Hquote) as Hin.
    rewrite <- Hp in Hin. unfold selected_rows in Hin.
    rewrite SaveOffer_NOW, Hm, Hperm in Hin.
    apply elem_of_app in Hin as [Hin | Hin]; [exact Hin | now apply Hold].
Qed.

(** An offer without expiration on the sample database. *)
Lemma ListQuotes_ignores_null_expiration_witness :
  let o := sample_offer "LGB" "JFK" 200 110 0 in
  let t := tables sample_world in
  let t' := tables (snd (SaveOffer o sample_world)) in
  (IsZero (ExpiresAt o) = true /\ fst (SaveOffer o sample_world) = None) /\
  listQuotesSQL t' 50 101 131 "" "" 100 0 = Ok [] /\
  exists x,
    (offers t' = offers t ++ [x] /\ places t' = places t /\ expires_at x = None) /\
    (forall now p1 p2 p3 p4,
       matching_offers t' now p1 p2 p3 p4 = matching_offers t now p1 p2 p3 p4) /\
    (forall now p1 p2 p3 p4 y,
       y ∈ matching_offers t' now p1 p2 p3 p4 -> expires_at y <> None) /\
    (forall now p1 p2 p3 p4,
       let m := matching_offers t now p1 p2 p3 p4 in
       select_quote <$> quote_sources t' m ≡ₚ
         (select_quote <$> quote_sources t m) ++ rows_through t m x /\
       (forall q, q ∈ rows_through t m x -> q ∈ select_quote <$> quote_sources t m) /\
       ((origin_id x, dest_id x, cost x, start_time x) ∉ next_min_offer m ->
        rows_through t m x = [])) /\
    (forall q r page quote,
       may_return q (snd (SaveOffer o sample_world)) r -> r = Ok page -> quote ∈ page ->
       quote ∈ selected_rows q sample_world).
Proof.
  cbn zeta. split; [split; reflexivity|]. split; [reflexivity|].
  exact (ListQuotes_ignores_null_expiration (sample_offer "LGB" "JFK" 200 110 0)
           sample_world eq_refl eq_refl).
Defined.

(** C9, the claim as stated fails.  On the sample database with its two
    routes, save once more the offer from LGB to JFK for 200 on day 110, now
    without expiration.  The final SELECT joins [next_min_offer] with
    [offers], not with [matching_offers], so the new row is read: the quote of
    its route is returned twice, and with limit 2 it takes the place of the
    quote of the other route, in every execution. *)
Lemma ListQuotes_returns_row_of_null_expiration :
  let o := sample_offer "LGB" "JFK" 200 110 0 in
  let w2 := snd (SaveOffer o two_routes) in
  (IsZero (ExpiresAt o) = true /\ fst (SaveOffer o two_routes) = None) /\
  fst (ListQuotes january two_routes) = Ok [quote_LGB_JFK; quote_JFK_LGB_250] /\
  fst (ListQuotes january w2) = Ok [quote_LGB_JFK; quote_LGB_JFK; quote_JFK_LGB_250] /\
  fst (ListQuotes (with_page 2 0 january) two_routes) =
    Ok [quote_LGB_JFK; quote_JFK_LGB_250] /\
  fst (ListQuotes (with_page 2 0 january) w2) = Ok [quote_LGB_JFK; quote_LGB_JFK] /\
  (forall r, may_return (with_page 2 0 january) w2 r ->
     r = Ok [quote_LGB_JFK; quote_LGB_JFK]).
Proof.
  cbn zeta. split; [split; reflexivity|].
  repeat (split; [vm_compute; reflexivity|]).
  intros r (sorted & [Hp Hasc] & ->).
  change (selected_rows _ _) with [quote_LGB_JFK; quote_LGB_JFK; quote_JFK_LGB_250] in Hp.
  assert (Hs : sorted = [quote_LGB_JFK; quote_LGB_JFK; quote_JFK_LGB_250]).
  { symmetry. apply (StronglySorted_unique_strong (λ a b, QCost a <= QCost b));
      [|repeat constructor; cbn; lia | exact Hasc | exact Hp].
    intros a b Ha Hb Hab Hba. rewrite <- Hp in Hb.
    repeat (apply elem_of_cons in Ha as [-> | Ha]);
      repeat (apply elem_of_cons in Hb as [-> | Hb]);
      try reflexivity; try inversion Ha; try inversion Hb;
      cbn in Hab, Hba; lia. }
  rewrite Hs. reflexivity.
Qed.

End NullExpiration.

(** ** The schema's constraints as an invariant *)

Section Consistency.

Implicit Types (w : World) (t : Tables) (x : OfferRow).

Lemma scalar_place_id_inv t code id :
  scalar_place_id t code = Some id ->
  exists p, p ∈ places t /\ iata_code p = Some code /\ place_id p = id.
Proof.
  unfold scalar_place_id, select_place_id.
  destruct (filter _ (places t)) as [|p rest] eqn:Hf; [discriminate|].
  intros [= <-]. exists p.
  assert (Hp : p ∈ filter (λ p, iata_code p = Some code) (places t))
    by (rewrite Hf; left).
  apply list_elem_of_filter in Hp. tauto.
Qed.

Lemma SaveOffer_tables (o : Offer) w :
  (offers (tables (snd (SaveOffer o w))) = offers (tables w) /\
   places (tables (snd (SaveOffer o w))) = places (tables w)) \/
  fst (SaveOffer o w) = None.
Proof.
  unfold SaveOffer, insert_offer.
  destruct (varchar 20 (Source o)); [|left; cbn; auto].
  destruct (MaxInt32 <=? offers_offer_id_seq (tables w)); [left; cbn; auto|].
  destruct (scalar_place_id (tables w) (OriginAirport o)); [|left; cbn; auto].
  destruct (scalar_place_id (tables w) (DestinationAirport o)); [|left; cbn; auto].
  destruct (IsZero (AvailableFrom o)); [left; cbn; auto | right; reflexivity].
Qed.

(** [SaveOffer] keeps the tables consistent. *)
Lemma SaveOffer_consistent (o : Offer) w :
  consistent (tables w) -> consistent (tables (snd (SaveOffer o w))).
Proof.
  intros [Hpk Href].
  destruct (SaveOffer_tables o w) as [[Ho Hp] | Hok].
  - split.
    + unfold primary_key. rewrite Hp. exact Hpk.
    + unfold airports_referenced. rewrite Ho, Hp. exact Href.
  - destruct (SaveOffer_Ok o w Hok) as (x & -> & Hoid & Hdid & _).
    split; [exact Hpk|].
    intros y Hy. cbn [offers places] in *.
    apply elem_of_app in Hy as [Hy | Hy]; [now apply Href|].
    apply list_elem_of_singleton in Hy as ->.
    apply scalar_place_id_inv in Hoid as (p & Hp & Hcode & Hid).
    apply scalar_place_id_inv in Hdid as (p' & Hp' & Hcode' & Hid').
    split; [exists p | exists p']; rewrite ?Hcode, ?Hcode'; eauto.
Qed.

Lemma sample_tables_consistent : consistent sample_tables.
Proof.
  split.
  - intros p p' Hp Hp' Hid. cbn in Hp, Hp'.
    repeat (apply elem_of_cons in Hp as [-> | Hp]);
      repeat (apply elem_of_cons in Hp' as [-> | Hp']);
      try reflexivity; try discriminate Hid; try inversion Hp; inversion Hp'.
  - intros x Hx. inversion Hx.
Qed.

(** The rows of [cheapestPerRouteSQL]. *)
Lemma elem_of_cheapestPerRouteSQL t p1 p2 r :
  r ∈ cheapestPerRouteSQL t p1 p2 <->
  exists o d s c origin dest,
    (o, d, s, c) ∈ cheapest t p1 p2 /\
    origin ∈ places t /\ place_id origin = o /\
    dest ∈ places t /\ place_id dest = d /\
    r = {| origin_iata_code := iata_code origin; origin_country := country origin;
           dest_iata_code := iata_code dest; dest_country := country dest;
           cheapest_cost := c; cheapest_start_time := s |}.
Proof.
  unfold cheapestPerRouteSQL. rewrite elem_of_order_by, list_elem_of_bind. split.
  - intros ([[[o d] s] c] & Hr & Hc).
    apply list_elem_of_bind in Hr as (origin & Hr & Horigin).
    apply list_elem_of_bind in Hr as (dest & Hr & Hdest).
    apply list_elem_of_singleton in Hr as ->.
    apply list_elem_of_filter in Horigin as [Ho Horigin].
    apply list_elem_of_filter in Hdest as [Hd Hdest].
    exists o, d, s, c, origin, dest. auto 10.
  - intros (o & d & s & c & origin & dest & Hc & Horigin & Ho & Hdest & Hd & ->).
    exists (o, d, s, c). split; [|exact Hc].
    apply list_elem_of_bind. exists origin.
    split; [|apply list_elem_of_filter; auto].
    apply list_elem_of_bind. exists dest.
    split; [|apply list_elem_of_filter; auto].
    left.
Qed.

(** The scan loop keeps every row when every row scans. *)
Lemma scan_rows_Ok {R : Type} (scan : R -> result Quote) (rows : list R) :
  (forall r, r ∈ rows -> exists q, scan r = Ok q) ->
  exists qs, scan_rows scan rows = Ok qs /\
             forall q, q ∈ qs <-> exists r, r ∈ rows /\ scan r = Ok q.
Proof.
  induction rows as [|r rows IH]; intros Hall.
  - exists []. split; [reflexivity|]. intros q. split; [inversion 1|].
    intros (r & Hr & _). inversion Hr.
  - destruct (Hall r) as [q0 Hq0]; [left|].
    destruct IH as (qs & Hqs & Hin); [intros r' Hr'; apply Hall; now right|].
    exists (q0 :: qs). split; [cbn; now rewrite Hq0, Hqs|].
    intros q. rewrite elem_of_cons, Hin. split.
    + intros [-> | (r' & Hr' & Hs)]; [exists r; split; [left | exact Hq0]|].
      exists r'. split; [now right | exact Hs].
    + intros (r' & Hr' & Hs). apply elem_of_cons in Hr' as [-> | Hr'].
      * left. congruence.
      * right. eauto.
Qed.

(** On consistent tables every row of [cheapestPerRouteSQL] scans. *)
Lemma cheapest_rows_scan t p1 p2 r :
  consistent t -> r ∈ cheapestPerRouteSQL t p1 p2 -> exists q, scan_cheapest r = Ok q.
Proof.
  intros [Hpk Href] Hr.
  apply elem_of_cheapestPerRouteSQL in Hr
    as (o & d & s & c & origin & dest & Hc & Horigin & Ho & Hdest & Hd & ->).
  apply elem_of_cheapest in Hc as [[(x & Hx & _ & [= Hxo Hxd] & _) _] _].
  destruct (Href x Hx) as [(p & Hp & Hpid & [co Hco]) (p' & Hp' & Hpid' & [cd Hcd])].
  assert (origin = p) as -> by (apply Hpk; auto; congruence).
  assert (dest = p') as -> by (apply Hpk; auto; congruence).
  unfold scan_cheapest. cbn. rewrite Hco, Hcd. eauto.
Qed.

End Consistency.

(** ** Cheapest per route, earliest date *)

Section CheapestDate.

Implicit Types (w : World) (t : Tables) (x : OfferRow) (q : ListQuotesRequest).

(** A non-empty selection of rows has a least value of any column. *)
Lemma least_exists (l : list OfferRow) (P : OfferRow -> Prop)
    `{!forall x, Decision (P x)} (f : OfferRow -> Z) x0 :
  x0 ∈ l -> P x0 ->
  exists z, least z (λ v, exists x, x ∈ l /\ P x /\ f x = v).
Proof.
  intros Hx0 HP.
  destruct (MIN_is_Some (f <$> filter P l) (f x0)) as [z Hz].
  { apply list_elem_of_fmap. exists x0. split; [reflexivity|].
    apply list_elem_of_filter. auto. }
  exists z. apply MIN_least in Hz. apply (least_ext _ _ _ Hz). intros v.
  rewrite list_elem_of_fmap. split.
  - intros (x & -> & Hx). apply list_elem_of_filter in Hx. exists x. tauto.
  - intros (x & Hx & HPx & <-). exists x. split; [reflexivity|].
    apply list_elem_of_filter. auto.
Qed.

(** X10. ListQuotes breaks ties by the earliest date: every quote it returns is
    the quote of a route, with the least cost among the candidates of the
    route and the least start among those of them that have this cost. *)
Lemma ListQuotes_earliest_date_tiebreak q w page quote :
  fst (ListQuotes q w) = Ok page -> quote ∈ page ->
  let is_candidate :=
    candidate (tables w) (NOW w) (StartDate q) (EndDate q)
      (strings_Join (Origins q) ",") (strings_Join (Destinations q) ",") in
  exists o d c s,
    quote_of_route (tables w) o d c s quote /\
    QCost quote = c /\ QDate quote = s /\
    least c (λ v, exists x, is_candidate x /\ route_of x = (o, d) /\ cost x = v) /\
    least s (λ v, exists x, is_candidate x /\ route_of x = (o, d) /\ cost x = c /\
                            start_time x = v).
Proof.
  intros Hpage Hq. cbn zeta.
  unfold ListQuotes, listQuotesSQL in Hpage. cbn in Hpage.
  pose proof (elem_of_page _ _ _ _ _ Hpage Hq) as Hin.
  apply elem_of_ordered_quotes in Hin as (o & d & c & s & Hn & Hroute).
  exists o, d, c, s. split; [exact Hroute|].
  destruct Hroute as (origin & dest & _ & _ & _ & _ & ->). cbn.
  split; [reflexivity|]. split; [reflexivity|].
  apply elem_of_next_min_offer in Hn as [Hc Hs]. split.
  - apply (least_ext _ _ _ Hc). intros v.
    split; intros (x & Hx & Hr); exists x; (split; [|exact Hr]);
      now apply elem_of_matching_offers.
  - apply (least_ext _ _ _ Hs). intros v.
    split; intros (x & Hx & Hr); exists x; (split; [|exact Hr]);
      now apply elem_of_matching_offers.
Qed.

(** CheapestPerRoute reports, per route, the least cost and the least start
    of the route's offers in the window, the two taken apart. *)
Lemma CheapestPerRoute_two_minima t p1 p2 o d s c :
  (o, d, s, c) ∈ cheapest t p1 p2 ->
  least c (λ v, exists x, x ∈ offers t /\ BETWEEN (start_time x) p1 p2 = true /\
                          route_of x = (o, d) /\ cost x = v) /\
  least s (λ v, exists x, x ∈ offers t /\ BETWEEN (start_time x) p1 p2 = true /\
                          route_of x = (o, d) /\ start_time x = v).
Proof. intros H. apply elem_of_cheapest in H. tauto. Qed.

(** C1, at a concrete input.  In the window from 101 to 131 the cheapest
    offer of the route costs 200 and starts on day 110.  [ListQuotes] reports
    200 and day 110.  [CheapestPerRoute] reports 200 and day 101, the start
    of the offer that costs 300. *)
Theorem CheapestPerRoute_date_of_another_offer :
  fst (ListQuotes {| StartDate := 101; EndDate := 131; Origins := []; Destinations := [];
                     Limit := 100; Offset := 0 |} two_prices) =
    Ok [{| QCost := 200; Origin := "Long Beach"; OriginCountry := "US";
           Dest := "John F Kennedy"; DestCountry := "US"; QDate := 110 |}] /\
  fst (CheapestPerRoute 101 131 two_prices) =
    Ok [{| QCost := 200; Origin := "LGB"; OriginCountry := "US";
           Dest := "JFK"; DestCountry := "US"; QDate := 101 |}].
Proof. vm_compute. split; reflexivity. Qed.

End CheapestDate.

(** ** Expired offers *)

Section Expiration.

Implicit Types (w : World) (t : Tables) (x : OfferRow) (q : ListQuotesRequest).

(** C2. Take consistent tables and a route [(o, d)] that has an offer
    starting in the window, all of its offers in the window being expired at
    the server's time.  [ListQuotes] keeps only candidates that expire
    strictly after that time, so none of this route: [next_min_offer] has no
    row for the route and every quote returned is the quote of another route.
    [CheapestPerRoute] with the same window succeeds and returns a quote of
    the route, with the codes of its two places and its least cost. *)
Theorem expired_route_asymmetry q w o d :
  consistent (tables w) ->
  (exists x, x ∈ offers (tables w) /\ route_of x = (o, d) /\
             BETWEEN (start_time x) (StartDate q) (EndDate q) = true) ->
  (forall x, x ∈ offers (tables w) -> route_of x = (o, d) ->
             BETWEEN (start_time x) (StartDate q) (EndDate q) = true ->
             expires_after (expires_at x) (NOW w) = false) ->
  let m := matching_offers (tables w) (NOW w) (StartDate q) (EndDate q)
             (strings_Join (Origins q) ",") (strings_Join (Destinations q) ",") in
  (forall x, x ∈ m ->
     (exists e, expires_at x = Some e /\ NOW w < e) /\ route_of x <> (o, d)) /\
  (forall c s, (o, d, c, s) ∉ next_min_offer m) /\
  (forall page quote, fst (ListQuotes q w) = Ok page -> quote ∈ page ->
     exists o' d' c s, (o', d') <> (o, d) /\ quote_of_route (tables w) o' d' c s quote) /\
  (exists rows c s origin dest co cd,
     fst (CheapestPerRoute (StartDate q) (EndDate q) w) = Ok rows /\
     origin ∈ places (tables w) /\ place_id origin = o /\ iata_code origin = Some co /\
     dest ∈ places (tables w) /\ place_id dest = d /\ iata_code dest = Some cd /\
     {| QCost := c; Origin := co; OriginCountry := country origin;
        Dest := cd; DestCountry := country dest; QDate := s |} ∈ rows /\
     least c (λ v, exists x, x ∈ offers (tables w) /\
                     BETWEEN (start_time x) (StartDate q) (EndDate q) = true /\
                     route_of x = (o, d) /\ cost x = v)).
Proof.
  intros Hcons (x0 & Hx0 & Hr0 & Hb0) Hexpired. cbn zeta.
  set (m := matching_offers _ _ _ _ _ _).
  assert (Hm : forall x, x ∈ m ->
             (exists e, expires_at x = Some e /\ NOW w < e) /\ route_of x <> (o, d)).
  { intros x Hx. apply elem_of_matching_offers in Hx as (Hin & Hb & He & _).
    split.
    - destruct (expires_at x) as [e|]; [|discriminate He].
      exists e. split; [reflexivity|]. now apply Z.ltb_lt.
    - intros Hr. rewrite (Hexpired x Hin Hr Hb) in He. discriminate He. }
  assert (Hnone : forall c s, (o, d, c, s) ∉ next_min_offer m).
  { intros c s Hn. apply elem_of_next_min_offer in Hn as [[(x & Hx & Hr & _) _] _].
    now apply (Hm x Hx). }
  split; [exact Hm|]. split; [exact Hnone|]. split.
  - intros page quote Hpage Hq.
    unfold ListQuotes, listQuotesSQL in Hpage. cbn in Hpage.
    pose proof (elem_of_page _ _ _ _ _ Hpage Hq) as Hin.
    apply elem_of_ordered_quotes in Hin as (o' & d' & c & s & Hn & Hroute).
    exists o', d', c, s. split; [|exact Hroute].
    intros [= -> ->]. now apply (Hnone c s).
  - destruct (least_exists (offers (tables w))
                (λ x, BETWEEN (start_time x) (StartDate q) (EndDate q) = true /\
                      route_of x = (o, d)) start_time x0 Hx0 (conj Hb0 Hr0)) as [s Hs].
    destruct (least_exists (offers (tables w))
                (λ x, BETWEEN (start_time x) (StartDate q) (EndDate q) = true /\
                      route_of x = (o, d)) cost x0 Hx0 (conj Hb0 Hr0)) as [c Hc].
    assert (Hs' : least s (λ v, exists x, x ∈ offers (tables w) /\
                    BETWEEN (start_time x) (StartDate q) (EndDate q) = true /\
                    route_of x = (o, d) /\ start_time x = v)).
    { apply (least_ext _ _ _ Hs). intros v. split; intros (x & Hx); exists x; tauto. }
    assert (Hc' : least c (λ v, exists x, x ∈ offers (tables w) /\
                    BETWEEN (start_time x) (StartDate q) (EndDate q) = true /\
                    route_of x = (o, d) /\ cost x = v)).
    { apply (least_ext _ _ _ Hc). intros v. split; intros (x & Hx); exists x; tauto. }
    assert (Hrow : (o, d, s, c) ∈ cheapest (tables w) (StartDate q) (EndDate q))
      by (apply elem_of_cheapest; auto).
    destruct Hcons as [Hpk Href].
    destruct (Href x0 Hx0) as [(origin & Horigin & Ho & [co Hco]) (dest & Hdest & Hd & [cd Hcd])].
    injection Hr0 as Hr0o Hr0d.
    destruct (scan_rows_Ok scan_cheapest
                (cheapestPerRouteSQL (tables w) (StartDate q) (EndDate q)))
      as (rows & Hrows & Hin).
    { intros r Hr. eapply cheapest_rows_scan; [split; eassumption | exact Hr]. }
    exists rows, c, s, origin, dest, co, cd.
    split; [exact Hrows|].
    repeat (split; [first [assumption | congruence]|]).
    split; [|exact Hc'].
    apply Hin. eexists. split.
    + apply elem_of_cheapestPerRouteSQL.
      exists o, d, s, c, origin, dest.
      repeat (split; [first [assumption | congruence]|]). reflexivity.
    + unfold scan_cheapest. cbn. now rewrite Hco, Hcd.
Qed.

End Expiration.

(** ** The asymmetry on the sample database *)

Lemma expired_world_consistent : consistent (tables expired_world).
Proof. apply SaveOffer_consistent, sample_tables_consistent. Qed.

Lemma expired_world_offers :
  offers (tables expired_world) =
    [{| offer_id := 1; origin_id := 1; dest_id := 2; cost := 200; source := "collector";
        start_time := 110; end_time := None; created_at := 5; expires_at := Some 40 |}].
Proof. reflexivity. Qed.

Lemma expired_world_has_offer :
  exists x, x ∈ offers (tables expired_world) /\ route_of x = (1, 2) /\
            BETWEEN (start_time x) (StartDate january) (EndDate january) = true.
Proof. rewrite expired_world_offers. eexists. split; [left|]. split; reflexivity. Qed.

Lemma expired_world_all_expired x :
  x ∈ offers (tables expired_world) -> route_of x = (1, 2) ->
  BETWEEN (start_time x) (StartDate january) (EndDate january) = true ->
  expires_after (expires_at x) (NOW expired_world) = false.
Proof.
  rewrite expired_world_offers. intros Hx _ _.
  apply list_elem_of_singleton in Hx as ->. reflexivity.
Qed.

(** On it [ListQuotes] returns no row and [CheapestPerRoute] one. *)
Lemma expired_route_asymmetry_witness :
  fst (ListQuotes january expired_world) = Ok [] /\
  fst (CheapestPerRoute 101 131 expired_world) =
    Ok [{| QCost := 200; Origin := "LGB"; OriginCountry := "US";
           Dest := "JFK"; DestCountry := "US"; QDate := 110 |}] /\
  (forall c s,
     (1, 2, c, s) ∉ next_min_offer
       (matching_offers (tables expired_world) (NOW expired_world)
          (StartDate january) (EndDate january)
          (strings_Join (Origins january) ",") (strings_Join (Destinations january) ","))).
Proof.
  split; [reflexivity|]. split; [reflexivity|].
  exact (proj1 (proj2 (expired_route_asymmetry january expired_world 1 2
                         expired_world_consistent expired_world_has_offer
                         expired_world_all_expired))).
Defined.

(** * Further properties of the code *)

(** ** Validate and SaveOffer *)

Section SavingOffers.

Implicit Types (w : World) (t : Tables) (x : OfferRow).

(** What an accepted offer holds. *)
Lemma Validate_None_inv (o : Offer) :
  Validate o = None ->
  0 < Cost o /\ Source o <> "" /\ OfferedAt o <> 0 /\ AvailableFrom o <> 0.
Proof.
  unfold Validate, IsZero.
  destruct (Z.leb_spec (Cost o) 0); [discriminate|].
  destruct (String.eqb_spec (Source o) EmptyString); [discriminate|].
  destruct (Z.eqb_spec (OfferedAt o) 0); [discriminate|].
  destruct (Z.eqb_spec (AvailableFrom o) 0); [discriminate|].
  auto.
Qed.

(** X1. [Validate] accepts an offer exactly when its cost is positive, its
    source is not empty and neither [OfferedAt] nor [AvailableFrom] is the
    zero time; otherwise it names the first of these that fails, in this
    order. *)
Theorem Validate_accepts_iff (o : Offer) :
  (Validate o = None <->
   0 < Cost o /\ Source o <> "" /\ OfferedAt o <> 0 /\ AvailableFrom o <> 0) /\
  (Cost o <= 0 -> Validate o = Some (errorString "missing cost")) /\
  (0 < Cost o -> Source o = "" -> Validate o = Some (errorString "missing source")) /\
  (0 < Cost o -> Source o <> "" -> OfferedAt o = 0 ->
   Validate o = Some (errorString "missing offeredAt")) /\
  (0 < Cost o -> Source o <> "" -> OfferedAt o <> 0 -> AvailableFrom o = 0 ->
   Validate o = Some (errorString "missing availableFrom")).
Proof.
  unfold Validate, IsZero.
  destruct (Z.leb_spec (Cost o) 0) as [Hc | Hc].
  { split; [split; [discriminate | lia]|].
    repeat split; intros; first [reflexivity | lia]. }
  destruct (String.eqb_spec (Source o) EmptyString) as [Hs | Hs].
  { split; [split; [discriminate | tauto]|].
    repeat split; intros; first [reflexivity | lia | contradiction]. }
  destruct (Z.eqb_spec (OfferedAt o) 0) as [Ho | Ho].
  { split; [split; [discriminate | tauto]|].
    repeat split; intros; first [reflexivity | lia | contradiction]. }
  destruct (Z.eqb_spec (AvailableFrom o) 0) as [Ha | Ha].
  { split; [split; [discriminate | tauto]|].
    repeat split; intros; first [reflexivity | lia | contradiction]. }
  split; [split; [tauto | reflexivity]|].
  repeat split; intros; first [lia | contradiction].
Qed.

Lemma scalar_place_id_resolves t code id :
  scalar_place_id t code = Some id -> resolves t code.
Proof.
  intros H. apply scalar_place_id_inv in H as (p & Hp & Hc & _). exists p. auto.
Qed.

(** The ways [SaveOffer] leaves the tables: refused before the INSERT runs,
    refused by a NOT NULL constraint after the sequence has moved, or one row
    appended. *)
Lemma SaveOffer_cases (o : Offer) w :
  (fst (SaveOffer o w) <> None /\
   places (tables (snd (SaveOffer o w))) = places (tables w) /\
   offers (tables (snd (SaveOffer o w))) = offers (tables w) /\
   ((offers_offer_id_seq (tables (snd (SaveOffer o w))) = offers_offer_id_seq (tables w) /\
     (varchar 20 (Source o) = None \/ MaxInt32 <= offers_offer_id_seq (tables w))) \/
    (offers_offer_id_seq (tables (snd (SaveOffer o w))) =
       offers_offer_id_seq (tables w) + 1 /\
     varchar 20 (Source o) <> None /\
     offers_offer_id_seq (tables w) < MaxInt32 /\
     (~ resolves (tables w) (OriginAirport o) \/
      ~ resolves (tables w) (DestinationAirport o) \/
      IsZero (AvailableFrom o) = true)))) \/
  (exists origin dest source_,
     varchar 20 (Source o) = Some source_ /\
     offers_offer_id_seq (tables w) < MaxInt32 /\
     scalar_place_id (tables w) (OriginAirport o) = Some origin /\
     scalar_place_id (tables w) (DestinationAirport o) = Some dest /\
     IsZero (AvailableFrom o) = false /\
     fst (SaveOffer o w) = None /\
     tables (snd (SaveOffer o w)) =
       {| places := places (tables w);
          offers := offers (tables w) ++
            [{| offer_id := offers_offer_id_seq (tables w) + 1;
                origin_id := origin; dest_id := dest;
                cost := Cost o; source := source_;
                start_time := AvailableFrom o;
                end_time := null_if_zero (AvailableTo o);
                created_at := OfferedAt o;
                expires_at := null_if_zero (ExpiresAt o) |}];
          offers_offer_id_seq := offers_offer_id_seq (tables w) + 1 |}).
Proof.
  unfold SaveOffer, insert_offer, null_if_zero.
  destruct (varchar 20 (Source o)) as [source_|] eqn:Hs.
  2:{ left. cbn. split; [discriminate|]. auto 10. }
  destruct (Z.leb_spec MaxInt32 (offers_offer_id_seq (tables w))) as [Hmax | Hmax].
  { left. cbn. split; [discriminate|]. auto 10. }
  destruct (scalar_place_id (tables w) (OriginAirport o)) as [origin|] eqn:Ho.
  2:{ left. cbn. split; [discriminate|]. do 2 (split; [reflexivity|]). right.
      split; [reflexivity|]. split; [discriminate|]. split; [exact Hmax|]. left.
      intros Hr. apply scalar_place_id_Some in Hr as (p & _ & _ & Hp). congruence. }
  destruct (scalar_place_id (tables w) (DestinationAirport o)) as [dest|] eqn:Hd.
  2:{ left. cbn. split; [discriminate|]. do 2 (split; [reflexivity|]). right.
      split; [reflexivity|]. split; [discriminate|]. split; [exact Hmax|]. right. left.
      intros Hr. apply scalar_place_id_Some in Hr as (p & _ & _ & Hp). congruence. }
  destruct (IsZero (AvailableFrom o)) eqn:Hz.
  { left. cbn. split; [discriminate|]. do 2 (split; [reflexivity|]). right.
    split; [reflexivity|]. split; [discriminate|]. auto. }
  right. exists origin, dest, source_. cbn.
  destruct (IsZero (AvailableTo o)), (IsZero (ExpiresAt o)); cbn; auto 10.
Qed.

(** What [SaveOffer] never touches. *)
Lemma SaveOffer_frame (o : Offer) w :
  places (tables (snd (SaveOffer o w))) = places (tables w) /\
  airportIDCache (snd (SaveOffer o w)) = airportIDCache w /\
  NOW (snd (SaveOffer o w)) = NOW w /\
  sent (snd (SaveOffer o w)) = sent w ++ [InsertOffer o].
Proof.
  split.
  - destruct (SaveOffer_cases o w)
      as [(_ & -> & _) | (? & ? & ? & _ & _ & _ & _ & _ & _ & ->)]; reflexivity.
  - unfold SaveOffer. destruct (insert_offer _ _ _ _ _ _ _ _ _) as [[[msg|c col msg]|] t];
      cbn; repeat match goal with |- context [if ?b then _ else _] => destruct b end;
      cbn; auto.
Qed.

(** X2. When [SaveOffer] succeeds, the source fits its column, the sequence
    was not exhausted, both airport codes resolve and [AvailableFrom] is not
    the zero time.  One row is appended: it has the next id of the sequence,
    the ids of places that carry the two codes, the offer's cost, the source
    as [VARCHAR(20)] keeps it, and NULL exactly for a zero [AvailableTo] or
    [ExpiresAt].  Succeeding or not, the places, the cache and the clock are
    untouched and one INSERT is sent. *)
Theorem SaveOffer_stores (o : Offer) w :
  (fst (SaveOffer o w) = None ->
   (varchar 20 (Source o) <> None /\
    offers_offer_id_seq (tables w) < MaxInt32 /\
    resolves (tables w) (OriginAirport o) /\
    resolves (tables w) (DestinationAirport o) /\
    AvailableFrom o <> 0) /\
   exists origin dest x,
     origin ∈ places (tables w) /\ iata_code origin = Some (OriginAirport o) /\
     dest ∈ places (tables w) /\ iata_code dest = Some (DestinationAirport o) /\
     offers (tables (snd (SaveOffer o w))) = offers (tables w) ++ [x] /\
     offer_id x = offers_offer_id_seq (tables w) + 1 /\
     origin_id x = place_id origin /\
     dest_id x = place_id dest /\
     cost x = Cost o /\
     varchar 20 (Source o) = Some (source x) /\
     (end_time x = None <-> AvailableTo o = 0) /\
     (expires_at x = None <-> ExpiresAt o = 0)) /\
  (varchar 20 (Source o) = None \/
   MaxInt32 <= offers_offer_id_seq (tables w) \/
   ~ resolves (tables w) (OriginAirport o) \/
   ~ resolves (tables w) (DestinationAirport o) \/
   AvailableFrom o = 0 ->
   fst (SaveOffer o w) <> None /\
   offers (tables (snd (SaveOffer o w))) = offers (tables w)) /\
  places (tables (snd (SaveOffer o w))) = places (tables w) /\
  airportIDCache (snd (SaveOffer o w)) = airportIDCache w /\
  NOW (snd (SaveOffer o w)) = NOW w /\
  sent (snd (SaveOffer o w)) = sent w ++ [InsertOffer o].
Proof.
  destruct (SaveOffer_frame o w) as [Hplaces Hrest].
  assert (Hnull : forall t : Time, null_if_zero t = None <-> t = 0).
  { intros t. unfold null_if_zero, IsZero.
    destruct (Z.eqb_spec t 0); cbn; split; congruence. }
  destruct (SaveOffer_cases o w)
    as [(Hf & _ & Hoff & Hwhy) |
        (origin & dest & source_ & Hs & Hmax & Ho & Hd & Hz & Hf & Ht)].
  - split; [intros H; now destruct Hf|]. split; [|split; [exact Hplaces | exact Hrest]].
    intros _. split; [exact Hf | exact Hoff].
  - assert (Hconds :
      varchar 20 (Source o) <> None /\
      offers_offer_id_seq (tables w) < MaxInt32 /\
      resolves (tables w) (OriginAirport o) /\
      resolves (tables w) (DestinationAirport o) /\
      AvailableFrom o <> 0).
    { split; [congruence|]. split; [exact Hmax|].
      split; [eapply scalar_place_id_resolves, Ho|].
      split; [eapply scalar_place_id_resolves, Hd|].
      unfold IsZero in Hz. now apply Z.eqb_neq. }
    split; [|split; [|split; [exact Hplaces | exact Hrest]]].
    + intros _. split; [exact Hconds|].
      apply scalar_place_id_inv in Ho as (po & Hpo & Hco & <-).
      apply scalar_place_id_inv in Hd as (pd & Hpd & Hcd & <-).
      eexists po, pd, _. rewrite Ht. cbn.
      do 4 (split; [assumption|]). split; [reflexivity|].
      do 4 (split; [reflexivity|]). split; [exact Hs|].
      split; apply Hnull.
    + intros Hbad. exfalso.
      destruct Hconds as (H1 & H2 & H3 & H4 & H5).
      destruct Hbad as [H | [H | [H | [H | H]]]]; first [contradiction | lia].
Qed.



End SavingOffers.

(** ** Invariants *)

Section StoreInvariants.

Implicit Types (w : World) (t : Tables) (x : OfferRow).




(** A failed [SaveOffer] stores no row. *)
Lemma SaveOffer_Err_offers (o : Offer) w e :
  fst (SaveOffer o w) = Some e ->
  offers (tables (snd (SaveOffer o w))) = offers (tables w) /\
  places (tables (snd (SaveOffer o w))) = places (tables w).
Proof.
  intros He.
  destruct (SaveOffer_cases o w)
    as [(_ & Hp & Ho & _) | (origin & dest & source_ & _ & _ & _ & _ & _ & Hf & _)].
  - auto.
  - congruence.
Qed.

(** What [VARCHAR(20)] keeps of a source that is not empty is not empty. *)
Lemma varchar_nonempty n s s' :
  varchar (S n) s = Some s' -> s <> "" -> s' <> "".
Proof.
  unfold varchar. destruct s as [|c r]; [contradiction|]. intros H _.
  cbn in H. destruct (is_continuation c), (clip _ r) as [h t];
    destruct (all_spaces t); try discriminate; injection H as <-; discriminate.
Qed.

(** A successful [SaveOffer] appends a row that stores the offer. *)
Lemma SaveOffer_stored_as (o : Offer) w :
  fst (SaveOffer o w) = None ->
  exists x,
    offers (tables (snd (SaveOffer o w))) = offers (tables w) ++ [x] /\
    stored_as (tables w) o x /\
    offer_id x = offers_offer_id_seq (tables w) + 1 /\
    start_time x = AvailableFrom o /\
    created_at x = OfferedAt o.
Proof.
  intros Hf.
  destruct (SaveOffer_cases o w)
    as [(Hno & _) | (origin & dest & source_ & Hs & _ & Ho & Hd & _ & _ & Ht)];
    [contradiction|].
  assert (Hnull : forall t : Time, null_if_zero t = None <-> t = 0).
  { intros t. unfold null_if_zero, IsZero.
    destruct (Z.eqb_spec t 0); cbn; split; congruence. }
  eexists. rewrite Ht. cbn [offers]. split; [reflexivity|].
  split; [|cbn; auto].
  unfold stored_as. cbn.
  split; [exact (scalar_place_id_inv _ _ _ Ho)|].
  split; [exact (scalar_place_id_inv _ _ _ Hd)|].
  split; [reflexivity|]. split; [exact Hs|]. split; apply Hnull.
Qed.

Lemma stored_as_places t t' (o : Offer) x :
  places t' = places t -> stored_as t o x -> stored_as t' o x.
Proof. unfold stored_as. intros ->. auto. Qed.

Section OnLines.

Variable json_Unmarshal : string -> result Offer.

(** What a run of saved lines does to the tables of the PostgreSQL store:
    one valid row per line is appended, in the order of the lines. *)
Lemma saved_all_offers lines w w' :
  saved_all (S := pg_Store) json_Unmarshal lines w w' ->
  exists rows,
    offers (tables w') = offers (tables w) ++ rows /\
    length rows = length lines /\
    Forall row_valid rows /\
    places (tables w') = places (tables w) /\
    Forall2 (stores_line json_Unmarshal (tables w)) lines rows.
Proof.
  induction 1 as [w | l lines o w w1 w2 Hj Hv Hs Hall IH].
  - exists []. rewrite app_nil_r. repeat split; constructor.
  - destruct IH as (rows & Hrows & Hlen & Hvalid & Hplaces & Hstored).
    cbn in Hs.
    assert (Hf : fst (SaveOffer o w) = None) by now rewrite Hs.
    assert (Hw1 : snd (SaveOffer o w) = w1) by now rewrite Hs.
    destruct (SaveOffer_stored_as o w Hf) as (x & Hx & Hsx & _ & Hstart & Hcreated).
    destruct (SaveOffer_frame o w) as [Hp _].
    rewrite Hw1 in Hx, Hp.
    pose proof (Validate_None_inv o Hv) as (Hc & Hsrc & Hoff & Hav).
    exists (x :: rows). rewrite Hrows, Hplaces, Hx, Hp.
    rewrite <- app_assoc. split; [reflexivity|].
    split; [cbn; now rewrite Hlen|]. split; [|split; [reflexivity|]].
    + constructor; [|exact Hvalid].
      destruct Hsx as (_ & _ & Hcost & Hsource & _).
      unfold row_valid. rewrite Hcost, Hstart, Hcreated.
      split; [exact Hc|]. split; [|auto].
      exact (varchar_nonempty _ _ _ Hsource Hsrc).
    + constructor.
      * exists o. auto.
      * eapply Forall2_impl; [exact Hstored|].
        intros l' x' (o' & Hj' & Hv' & Hs'). exists o'. split; [exact Hj'|].
        split; [exact Hv'|]. now apply (stored_as_places (tables w1)).
Qed.

(** X5. On the PostgreSQL store [HandleAddOffers] only appends to [offers]
    and leaves [places] alone.  The rows it appends are the rows of the lines
    it saved, one per line and in their order: each stores the offer its line
    decodes to and has a positive cost, a source, a creation time and a
    start.  The lines saved are all the lines, or the lines before the first
    one that does not decode, is not valid or is refused by the store: that
    line stops the batch, and nothing is appended for it or for a line after
    it. *)
Theorem HandleAddOffers_appends_valid_rows (r : Request) w :
  let out := HandleAddOffers (S := pg_Store) json_Unmarshal r w in
  exists saved rows,
    offers (tables (world out)) = offers (tables w) ++ rows /\
    places (tables (world out)) = places (tables w) /\
    Forall2 (stores_line json_Unmarshal (tables w)) saved rows /\
    Forall row_valid rows /\
    ((saved = tokens (Body r) /\
      saved_all (S := pg_Store) json_Unmarshal saved w (world out)) \/
     (exists l post w1,
        tokens (Body r) = saved ++ l :: post /\
        saved_all (S := pg_Store) json_Unmarshal saved w w1 /\
        stops_at (S := pg_Store) json_Unmarshal l (1 + Z.of_nat (length saved)) w1 out /\
        Status (response out) <> StatusOK)).
Proof.
  cbn zeta.
  destruct (addOffers_loop_spec (S := pg_Store) json_Unmarshal
              (tokens (Body r)) (scan_err (Body r)) 1 0 w)
    as [(w' & Hall & Hrun) | (pre & l & post & w1 & Heq & Hall & Hstop)];
    unfold HandleAddOffers.
  - rewrite Hrun.
    assert (Hw : world (finishes (scan_err (Body r))
                          (0 + Z.of_nat (length (tokens (Body r)))) w') = w')
      by (unfold finishes; destruct (scan_err (Body r)); reflexivity).
    rewrite Hw.
    destruct (saved_all_offers _ _ _ Hall)
      as (rows & Hrows & Hlen & Hvalid & Hplaces & Hstored).
    exists (tokens (Body r)), rows. auto 10.
  - destruct (saved_all_offers _ _ _ Hall)
      as (rows & Hrows & Hlen & Hvalid & Hplaces & Hstored).
    exists pre, rows.
    assert (Hout :
      offers (tables (world (addOffers_loop (S := pg_Store) json_Unmarshal
                               (tokens (Body r)) (scan_err (Body r)) 1 0 w))) =
        offers (tables w1) /\
      places (tables (world (addOffers_loop (S := pg_Store) json_Unmarshal
                               (tokens (Body r)) (scan_err (Body r)) 1 0 w))) =
        places (tables w1) /\
      Status (response (addOffers_loop (S := pg_Store) json_Unmarshal
                          (tokens (Body r)) (scan_err (Body r)) 1 0 w)) <> StatusOK).
    { pose proof Hstop as Hstop'. unfold stops_at in Hstop'.
      destruct (json_Unmarshal l) as [o|e].
      2:{ rewrite Hstop'. cbn. repeat split. discriminate. }
      destruct (Validate o) as [e|].
      { rewrite Hstop'. cbn. repeat split. discriminate. }
      destruct Hstop' as (e & w2 & Hs & ->). cbn in Hs |- *.
      assert (Hf : fst (SaveOffer o w1) = Some e) by now rewrite Hs.
      assert (Hw2 : snd (SaveOffer o w1) = w2) by now rewrite Hs.
      destruct (SaveOffer_Err_offers o w1 e Hf) as [Ho Hp]. rewrite Hw2 in Ho, Hp.
      repeat split; [exact Ho | exact Hp | discriminate]. }
    destruct Hout as (Ho & Hp & Hst).
    rewrite Ho, Hp, Hrows, Hplaces.
    do 4 (split; [first [reflexivity | assumption]|]).
    right. exists l, post, w1. auto.
Qed.

(** X6. Hence [HandleAddOffers] keeps the table valid: when every stored
    row has a positive cost, a source, a creation time and a start, so has
    every row after the batch, whatever the lines hold. *)
Theorem HandleAddOffers_rows_valid (r : Request) w :
  rows_valid (tables w) ->
  rows_valid (tables (world (HandleAddOffers (S := pg_Store) json_Unmarshal r w))).
Proof.
  intros Hvalid.
  destruct (addOffers_loop_spec (S := pg_Store) json_Unmarshal
              (tokens (Body r)) (scan_err (Body r)) 1 0 w)
    as [(w' & Hall & Hrun) | (pre & l & post & w1 & Heq & Hall & Hstop)];
    unfold HandleAddOffers;
    destruct (saved_all_offers _ _ _ Hall) as (rows & Hrows & _ & Hnew & _).
  - rewrite Hrun.
    assert (Hw : world (finishes (scan_err (Body r))
                          (0 + Z.of_nat (length (tokens (Body r)))) w') = w')
      by (unfold finishes; destruct (scan_err (Body r)); reflexivity).
    rewrite Hw. intros x Hx. rewrite Hrows in Hx.
    apply elem_of_app in Hx as [Hx | Hx]; [now apply Hvalid|].
    rewrite Forall_forall in Hnew. now apply Hnew.
  - assert (Hw1 : rows_valid (tables w1)).
    { intros x Hx. rewrite Hrows in Hx.
      apply elem_of_app in Hx as [Hx | Hx]; [now apply Hvalid|].
      rewrite Forall_forall in Hnew. now apply Hnew. }
    unfold stops_at in Hstop.
    destruct (json_Unmarshal l) as [o|e]; [|now rewrite Hstop].
    destruct (Validate o) as [e|]; [now rewrite Hstop|].
    destruct Hstop as (e & w2 & Hs & ->). cbn in Hs |- *.
    assert (Hf : fst (SaveOffer o w1) = Some e) by now rewrite Hs.
    assert (Hw2 : snd (SaveOffer o w1) = w2) by now rewrite Hs.
    destruct (SaveOffer_Err_offers o w1 e Hf) as [Ho _]. rewrite Hw2 in Ho.
    intros x Hx. rewrite Ho in Hx. now apply Hw1.
Qed.

End OnLines.

Lemma sample_tables_rows_valid : rows_valid sample_tables.
Proof. intros x Hx. inversion Hx. Qed.

Lemma HandleAddOffers_rows_valid_witness :
  rows_valid (tables sample_world) /\
  rows_valid (tables (world (sample_addOffers
                               (post_lines ["LGB-JFK 200"; "LGB-JFK 0"]) sample_world))).
Proof.
  split; [exact sample_tables_rows_valid|].
  exact (HandleAddOffers_rows_valid sample_Unmarshal
           (post_lines ["LGB-JFK 200"; "LGB-JFK 0"]) sample_world sample_tables_rows_valid).
Defined.

End StoreInvariants.

(** ** The airport cache *)

Section CacheInvariant.

Implicit Types (w : World) (t : Tables).

Lemma elem_of_select_place_id t code id :
  id ∈ select_place_id t code <->
  exists p, p ∈ places t /\ iata_code p = Some code /\ place_id p = id.
Proof.
  unfold select_place_id. rewrite list_elem_of_fmap. split.
  - intros (p & -> & Hp). apply list_elem_of_filter in Hp. exists p. tauto.
  - intros (p & Hp & Hc & <-). exists p. split; [reflexivity|].
    apply list_elem_of_filter. tauto.
Qed.

(** X7. When every cached id belongs to a place that carries the code,
    this stays so after [AirportIDByIATA] and after [SaveOffer], and an id
    that [AirportIDByIATA] returns, from the cache or from the table, is the
    id of a place with that code.  Under the unique index on the codes it is
    the id the INSERT of [SaveOffer] finds for the code, and the lookup fails
    exactly when no place has the code. *)
Theorem AirportIDByIATA_cache_sound (code : string) (o : Offer) w :
  cache_sound w ->
  cache_sound (snd (AirportIDByIATA code w)) /\
  cache_sound (snd (SaveOffer o w)) /\
  tables (snd (AirportIDByIATA code w)) = tables w /\
  (forall id, fst (AirportIDByIATA code w) = Ok id ->
     exists p, p ∈ places (tables w) /\ iata_code p = Some code /\ place_id p = id) /\
  (unique_codes (tables w) ->
     (forall id, fst (AirportIDByIATA code w) = Ok id <->
                 scalar_place_id (tables w) code = Some id) /\
     ((exists e, fst (AirportIDByIATA code w) = Err e) <-> ~ resolves (tables w) code)).
Proof.
  intros Hsound.
  assert (Hsave : cache_sound (snd (SaveOffer o w))).
  { destruct (SaveOffer_frame o w) as (Hp & Hc & _).
    intros k id Hk. rewrite Hc in Hk. rewrite Hp. now apply Hsound. }
  unfold AirportIDByIATA.
  destruct (airportIDCache w !! code) as [id0|] eqn:Hc.
  - cbn. destruct (Hsound _ _ Hc) as (p & Hp & Hcode & Hid).
    split; [exact Hsound|]. split; [exact Hsave|]. split; [reflexivity|]. split.
    { intros id [= <-]. exists p. auto. }
    intros Huniq. split.
    + intros id. split.
      * intros [= <-].
        destruct (scalar_place_id_Some (tables w) code) as (p' & Hp' & Hcode' & ->);
          [exists p; auto|].
        rewrite (Huniq p' p code Hp' Hp Hcode' Hcode). congruence.
      * intros Hs. apply scalar_place_id_inv in Hs as (p' & Hp' & Hcode' & <-).
        rewrite (Huniq p' p code Hp' Hp Hcode' Hcode). congruence.
    + split; [intros [e [=]]|]. intros Hno. exfalso. apply Hno. exists p. auto.
  - cbn. unfold scalar_place_id.
    destruct (select_place_id (tables w) code) as [|id1 rest] eqn:Hsel; cbn.
    + split; [exact Hsound|]. split; [exact Hsave|]. split; [reflexivity|].
      split; [intros id [=]|]. intros _. split.
      * intros id. split; discriminate.
      * split; [|intros _; exists ErrNoRows; reflexivity]. intros _ (p & Hp & Hcode).
        assert (Hin : place_id p ∈ select_place_id (tables w) code)
          by (apply elem_of_select_place_id; exists p; auto).
        rewrite Hsel in Hin. inversion Hin.
    + assert (Hin : id1 ∈ select_place_id (tables w) code) by (rewrite Hsel; left).
      apply elem_of_select_place_id in Hin as (p & Hp & Hcode & Hid).
      split; [|split; [exact Hsave|split; [reflexivity|split]]].
      * intros k id Hk. cbn in Hk. destruct (decide (code = k)) as [<- | Hne].
        -- rewrite lookup_insert_eq in Hk. injection Hk as <-. cbn. exists p. auto.
        -- rewrite lookup_insert_ne in Hk by exact Hne. cbn. now apply Hsound.
      * intros id [= <-]. exists p. auto.
      * intros _. split.
        -- intros id. split; intros [= <-]; reflexivity.
        -- split; [intros [e [=]]|]. intros Hno. exfalso. apply Hno. exists p. auto.
Qed.

Lemma sample_world_cache_sound : cache_sound sample_world.
Proof. intros code id Hc. cbn in Hc. rewrite lookup_empty in Hc. discriminate. Qed.

Lemma AirportIDByIATA_cache_sound_witness :
  cache_sound sample_world /\
  fst (AirportIDByIATA "JFK" sample_world) = Ok 2 /\
  cache_sound (snd (AirportIDByIATA "JFK" sample_world)).
Proof.
  split; [exact sample_world_cache_sound|]. split; [reflexivity|].
  exact (proj1 (AirportIDByIATA_cache_sound "JFK" (sample_offer "LGB" "JFK" 200 110 1000)
                  sample_world sample_world_cache_sound)).
Defined.

End CacheInvariant.

(** ** ListQuotes: every candidate route is quoted *)

Section QuotesComplete.

Implicit Types (w : World) (t : Tables) (x : OfferRow) (q : ListQuotesRequest).

(** A candidate has its route in the full result, at a cost no higher than
    its own and, at equal cost, a date no later than its own. *)
Lemma candidate_quoted t now p1 p2 p3 p4 x :
  candidate t now p1 p2 p3 p4 x ->
  exists c s quote,
    quote ∈ ordered_quotes t now p1 p2 p3 p4 /\
    quote_of_route t (origin_id x) (dest_id x) c s quote /\
    c <= cost x /\ (c = cost x -> s <= start_time x).
Proof.
  intros Hcand.
  pose proof Hcand as (_ & _ & _ & (origin & Horigin & Ho & _) & (dest & Hdest & Hd & _)).
  set (m := matching_offers t now p1 p2 p3 p4).
  assert (Hx : x ∈ m) by now apply elem_of_matching_offers.
  destruct (least_exists m (λ y, route_of y = route_of x) cost x Hx eq_refl) as [c Hc].
  pose proof Hc as [(y0 & Hy0 & Hry0 & Hcy0) Hcmin].
  destruct (least_exists m (λ y, route_of y = route_of x /\ cost y = c) start_time y0 Hy0
              (conj Hry0 Hcy0)) as [s Hs].
  assert (Hs' : least s (λ v, exists y, y ∈ m /\ route_of y = (origin_id x, dest_id x) /\
                                        cost y = c /\ start_time y = v)).
  { apply (least_ext _ _ _ Hs). intros v. split; intros (y & Hy); exists y; tauto. }
  exists c, s,
    {| QCost := c; Origin := name origin; OriginCountry := country origin;
       Dest := name dest; DestCountry := country dest; QDate := s |}.
  split; [|split; [|split]].
  - apply elem_of_ordered_quotes. exists (origin_id x), (dest_id x), c, s.
    split; [apply elem_of_next_min_offer; split; [exact Hc | exact Hs']|].
    exists origin, dest. auto 10.
  - exists origin, dest. auto 10.
  - apply Hcmin. exists x. auto.
  - intros Hcx. apply (proj2 Hs). exists x. auto.
Qed.





(** X9. Let [SaveOffer] have stored an offer as the row [x].  If the row
    starts in the window and its expiration is after the server's time, as
    the columns hold them, and the offer's two codes pass the filters, then
    the route of the offer is quoted afterwards, between the places that
    carry its codes and at a cost no higher than its own. *)
Theorem saved_offer_is_quoted (o : Offer) q w x :
  fst (SaveOffer o w) = None ->
  offers (tables (snd (SaveOffer o w))) = offers (tables w) ++ [x] ->
  BETWEEN (start_time x) (StartDate q) (EndDate q) = true ->
  expires_after (expires_at x) (NOW w) = true ->
  code_passes (strings_Join (Origins q) ",") (Some (OriginAirport o)) = true ->
  code_passes (strings_Join (Destinations q) ",") (Some (DestinationAirport o)) = true ->
  exists origin dest c s quote,
    origin ∈ places (tables w) /\ iata_code origin = Some (OriginAirport o) /\
    dest ∈ places (tables w) /\ iata_code dest = Some (DestinationAirport o) /\
    quote ∈ selected_rows q (snd (SaveOffer o w)) /\
    quote_of_route (tables (snd (SaveOffer o w))) (place_id origin) (place_id dest) c s quote /\
    c <= Cost o.
Proof.
  intros Hok Hx Hb He H3 H4.
  destruct (SaveOffer_frame o w) as (Hplaces & _ & Hnow & _).
  destruct (SaveOffer_stored_as o w Hok) as (x' & Hx' & Hstored & _).
  assert (x' = x) as ->.
  { rewrite Hx in Hx'. now apply app_inj_tail in Hx' as [_ ->]. }
  destruct Hstored as ((origin & Horigin & Hco & Hoid) & (dest & Hdest & Hcd & Hdid) &
                       Hcost & _).
  assert (Hcand : candidate (tables (snd (SaveOffer o w))) (NOW (snd (SaveOffer o w)))
                    (StartDate q) (EndDate q) (strings_Join (Origins q) ",")
                    (strings_Join (Destinations q) ",") x).
  { rewrite Hnow. unfold candidate. rewrite Hx, Hplaces.
    split; [apply elem_of_app; right; left|]. split; [exact Hb|]. split; [exact He|].
    split; [exists origin | exists dest]; rewrite ?Hco, ?Hcd; auto. }
  destruct (candidate_quoted _ _ _ _ _ _ _ Hcand) as (c & s & quote & Hin & Hroute & Hle & _).
  exists origin, dest, c, s, quote. rewrite Hoid, Hdid, <- Hcost.
  do 4 (split; [assumption|]). split; [|auto].
  unfold ordered_quotes in Hin. now apply elem_of_order_by in Hin.
Qed.

Lemma saved_offer_is_quoted_witness :
  let o := sample_offer "LGB" "JFK" 200 110 1000 in
  let x := {| offer_id := 1; origin_id := 1; dest_id := 2; cost := 200;
              source := "collector"; start_time := 110; end_time := None;
              created_at := 5; expires_at := Some 1000 |} in
  (fst (SaveOffer o sample_world) = None /\
   offers (tables (snd (SaveOffer o sample_world))) = offers sample_tables ++ [x] /\
   BETWEEN (start_time x) (StartDate january) (EndDate january) = true /\
   expires_after (expires_at x) (NOW sample_world) = true) /\
  exists origin dest c s quote,
    origin ∈ places sample_tables /\ iata_code origin = Some "LGB" /\
    dest ∈ places sample_tables /\ iata_code dest = Some "JFK" /\
    quote ∈ selected_rows january (snd (SaveOffer o sample_world)) /\
    quote_of_route (tables (snd (SaveOffer o sample_world)))
      (place_id origin) (place_id dest) c s quote /\
    c <= 200.
Proof.
  cbn zeta. split; [repeat split; reflexivity|].
  exact (saved_offer_is_quoted (sample_offer "LGB" "JFK" 200 110 1000) january sample_world
           _ eq_refl eq_refl eq_refl eq_refl eq_refl eq_refl).
Defined.

End QuotesComplete.

Lemma ListQuotes_earliest_date_tiebreak_witness :
  let quote := {| QCost := 200; Origin := "Long Beach"; OriginCountry := "US";
                  Dest := "John F Kennedy"; DestCountry := "US"; QDate := 110 |} in
  let is_candidate :=
    candidate (tables two_prices) (NOW two_prices) (StartDate january) (EndDate january)
      (strings_Join (Origins january) ",") (strings_Join (Destinations january) ",") in
  (fst (ListQuotes january two_prices) = Ok [quote] /\ quote ∈ [quote]) /\
  exists o d c s,
    quote_of_route (tables two_prices) o d c s quote /\
    QCost quote = c /\ QDate quote = s /\
    least c (λ v, exists x, is_candidate x /\ route_of x = (o, d) /\ cost x = v) /\
    least s (λ v, exists x, is_candidate x /\ route_of x = (o, d) /\ cost x = c /\
                            start_time x = v).
Proof.
  cbn zeta. split; [split; [reflexivity | left]|].
  exact (ListQuotes_earliest_date_tiebreak january two_prices _ _ eq_refl
           (list_elem_of_here _ _)).
Defined.

(** ** CheapestPerRoute *)

Section CheapestPerRouteFacts.

Implicit Types (w : World) (t : Tables) (x : OfferRow).

Lemma scan_rows_Forall2 {R : Type} (scan : R -> result Quote) (rows : list R) qs :
  scan_rows scan rows = Ok qs -> Forall2 (λ r q, scan r = Ok q) rows qs.
Proof.
  revert qs. induction rows as [|r rows IH]; intros qs; cbn.
  - intros [= <-]. constructor.
  - destruct (scan r) as [q0|e] eqn:Hq0; [|discriminate].
    destruct (scan_rows scan rows) as [qs0|e]; [|discriminate].
    intros [= <-]. constructor; [exact Hq0 | now apply IH].
Qed.

Lemma ascending_Forall2 {A B : Type} (R : A -> B -> Prop) (ka : A -> Z) (kb : B -> Z)
    (l : list A) (l' : list B) :
  (forall a b, R a b -> ka a = kb b) ->
  Forall2 R l l' -> ascending ka l -> ascending kb l'.
Proof.
  intros Hkey HF. unfold ascending. induction HF as [|a b l l' Hab HF IH]; intros Hs.
  - constructor.
  - apply StronglySorted_inv in Hs as [Hs Hall]. constructor; [now apply IH|].
    rewrite <- (Hkey a b Hab).
    clear IH Hs. induction HF as [|a' b' l l' Hab' HF IH]; [constructor|].
    apply Forall_cons in Hall as [Ha Hall].
    constructor; [now rewrite <- (Hkey a' b' Hab') | now apply IH].
Qed.

Lemma scan_cheapest_Ok r q :
  scan_cheapest r = Ok q ->
  origin_iata_code r = Some (Origin q) /\ dest_iata_code r = Some (Dest q) /\
  origin_country r = OriginCountry q /\ dest_country r = DestCountry q /\
  cheapest_cost r = QCost q /\ cheapest_start_time r = QDate q.
Proof.
  unfold scan_cheapest.
  destruct (origin_iata_code r), (dest_iata_code r); try discriminate.
  intros [= <-]. cbn. auto 10.
Qed.

(** X11. The quotes [CheapestPerRoute] returns ascend by cost.  Each is the
    quote of a route: it shows the codes and countries of places that carry
    the route's two ids, the least cost among the route's offers that start
    in the window, and the least start among these same offers, whatever
    their cost. *)
Theorem CheapestPerRoute_quotes (start end_ : Time) w qs :
  fst (CheapestPerRoute start end_ w) = Ok qs ->
  ascending QCost qs /\
  forall quote, quote ∈ qs ->
    exists o d origin dest,
      origin ∈ places (tables w) /\ place_id origin = o /\
      iata_code origin = Some (Origin quote) /\ country origin = OriginCountry quote /\
      dest ∈ places (tables w) /\ place_id dest = d /\
      iata_code dest = Some (Dest quote) /\ country dest = DestCountry quote /\
      least (QCost quote)
        (λ v, exists x, x ∈ offers (tables w) /\ BETWEEN (start_time x) start end_ = true /\
                        route_of x = (o, d) /\ cost x = v) /\
      least (QDate quote)
        (λ v, exists x, x ∈ offers (tables w) /\ BETWEEN (start_time x) start end_ = true /\
                        route_of x = (o, d) /\ start_time x = v).
Proof.
  unfold CheapestPerRoute. cbn. intros Hscan.
  apply scan_rows_Forall2 in Hscan. split.
  - eapply ascending_Forall2; [|exact Hscan|apply order_by_ascending].
    intros r q Hq. apply scan_cheapest_Ok in Hq. tauto.
  - intros quote Hquote.
    apply list_elem_of_lookup in Hquote as [i Hi].
    destruct (Forall2_lookup_r _ _ _ _ _ Hscan Hi) as (r & Hr & Hq).
    apply list_elem_of_lookup_2 in Hr.
    apply elem_of_cheapestPerRouteSQL in Hr
      as (o & d & s & c & origin & dest & Hc & Horigin & Ho & Hdest & Hd & ->).
    apply scan_cheapest_Ok in Hq as (Hoc & Hdc & Hoco & Hdco & Hcost & Hdate).
    cbn in *. subst c s.
    apply elem_of_cheapest in Hc as [Hs Hc].
    exists o, d, origin, dest. auto 12.
Qed.

Lemma CheapestPerRoute_quotes_witness :
  fst (CheapestPerRoute 101 131 two_routes) =
    Ok [{| QCost := 200; Origin := "LGB"; OriginCountry := "US";
           Dest := "JFK"; DestCountry := "US"; QDate := 110 |};
        {| QCost := 250; Origin := "JFK"; OriginCountry := "US";
           Dest := "LGB"; DestCountry := "US"; QDate := 120 |}] /\
  ascending QCost
    [{| QCost := 200; Origin := "LGB"; OriginCountry := "US";
        Dest := "JFK"; DestCountry := "US"; QDate := 110 |};
     {| QCost := 250; Origin := "JFK"; OriginCountry := "US";
        Dest := "LGB"; DestCountry := "US"; QDate := 120 |}].
Proof.
  split; [reflexivity|].
  exact (proj1 (CheapestPerRoute_quotes 101 131 two_routes _ eq_refl)).
Defined.

(** X12. On consistent tables [GET /quotes/cheapest] always answers 200:
    the query succeeds, the body is one line [origin,dest,cost] per quote in
    the order of the quotes, nothing is written to stderr, and the tables are
    as before. *)
Theorem HandleCheapestPerRoute_answers (t0 t1 : Time) (r : Request) w :
  consistent (tables w) ->
  exists qs,
    fst (CheapestPerRoute t0 (t1 + thirty_days) w) = Ok qs /\
    response (HandleCheapestPerRoute (S := pg_Store) t0 t1 r w) =
      {| Status := StatusOK; Header := ∅;
         RBody := foldr (λ q out, quote_line q +:+ out) "" qs |} /\
    stderr (HandleCheapestPerRoute (S := pg_Store) t0 t1 r w) = [] /\
    tables (world (HandleCheapestPerRoute (S := pg_Store) t0 t1 r w)) = tables w.
Proof.
  intros Hcons.
  destruct (scan_rows_Ok scan_cheapest
              (cheapestPerRouteSQL (tables w) t0 (t1 + thirty_days)))
    as (qs & Hqs & _).
  { intros row Hrow. eapply cheapest_rows_scan; eassumption. }
  exists qs. unfold HandleCheapestPerRoute. cbn. unfold CheapestPerRoute. cbn.
  rewrite Hqs. cbn. auto.
Qed.

Lemma two_routes_consistent : consistent (tables two_routes).
Proof. do 2 apply SaveOffer_consistent. exact sample_tables_consistent. Qed.

Lemma HandleCheapestPerRoute_answers_witness :
  consistent (tables two_routes) /\
  RBody (response (HandleCheapestPerRoute (S := pg_Store) 0 0 (post_lines []) two_routes)) =
    "LGB,JFK,200" +:+ nl +:+ "JFK,LGB,250" +:+ nl /\
  exists qs,
    fst (CheapestPerRoute 0 (0 + thirty_days) two_routes) = Ok qs /\
    response (HandleCheapestPerRoute (S := pg_Store) 0 0 (post_lines []) two_routes) =
      {| Status := StatusOK; Header := ∅;
         RBody := foldr (λ q out, quote_line q +:+ out) "" qs |} /\
    stderr (HandleCheapestPerRoute (S := pg_Store) 0 0 (post_lines []) two_routes) = [] /\
    tables (world (HandleCheapestPerRoute (S := pg_Store) 0 0 (post_lines []) two_routes)) =
      tables two_routes.
Proof.
  split; [exact two_routes_consistent|]. split; [vm_compute; reflexivity|].
  exact (HandleCheapestPerRoute_answers 0 0 (post_lines []) two_routes two_routes_consistent).
Defined.

End CheapestPerRouteFacts.

(** ** The earlier queries and the store's queries *)

Section EarlierQueries.

Implicit Types (w : World) (t : Tables) (x : OfferRow).

Lemma limit_offset_fmap {A B : Type} (f : A -> B) (n k : Z) (l : list A) :
  limit_offset n k (f <$> l) =
    match limit_offset n k l with
    | Ok page => Ok (f <$> page)
    | Err e => Err e
    end.
Proof.
  unfold limit_offset. destruct (k <? 0); [reflexivity|].
  destruct (n <? 0); [reflexivity|].
  now rewrite fmap_take, fmap_drop.
Qed.

Lemma MIN_fmap_None {A : Type} (f : A -> Z) (l : list A) :
  MIN (f <$> l) = None <-> l = [].
Proof. destruct l; cbn; split; congruence. Qed.

(** The CTE of the earlier route query is that of the store's, without the
    start. *)
Lemma cheapest_without_start t p1 p2 :
  (λ r : Z * Z * Time * Z, (r.1.1.1, r.1.1.2, r.2)) <$> cheapest t p1 p2 =
  min_offers (filter (λ o, BETWEEN (start_time o) p1 p2) (offers t)).
Proof.
  unfold cheapest, min_offers.
  set (rows := filter _ (offers t)).
  induction (remove_dups (route_of <$> rows)) as [|k ks IH]; [reflexivity|].
  cbn [omap list_omap].
  destruct (MIN (start_time <$> filter (λ o, route_of o = k) rows)) as [s|] eqn:Hs.
  - cbn. destruct (MIN (cost <$> filter (λ o, route_of o = k) rows)) as [c|] eqn:Hc.
    + cbn. f_equal. exact IH.
    + cbn. exact IH.
  - apply MIN_fmap_None in Hs.
    assert (Hc : MIN (cost <$> filter (λ o, route_of o = k) rows) = None)
      by now apply MIN_fmap_None.
    cbn. rewrite Hc. cbn. exact IH.
Qed.

Lemma fmap_bind_comm {A B C : Type} (f : B -> C) (k : A -> list B) (l : list A) :
  f <$> (l ≫= k) = l ≫= (λ a, f <$> k a).
Proof.
  induction l as [|a l IH]; [reflexivity|].
  now rewrite !bind_cons, fmap_app, IH.
Qed.

(** The rows of the earlier route query are those of the store's, without
    the countries and the start. *)
Lemma getCheapestRoute_rows_forget t p1 p2 :
  getCheapestRoute_rows t p1 p2 = forget_start <$> cheapestPerRoute_rows t p1 p2.
Proof.
  unfold getCheapestRoute_rows, cheapestPerRoute_rows.
  rewrite <- cheapest_without_start.
  rewrite list_fmap_bind, fmap_bind_comm.
  apply list_bind_ext; [|reflexivity]. intros [[[o d] s] c]. cbn.
  rewrite fmap_bind_comm. apply list_bind_ext; [|reflexivity]. intros origin.
  rewrite fmap_bind_comm. apply list_bind_ext; [|reflexivity]. intros dest.
  reflexivity.
Qed.

(** An arrangement of projected rows is the projection of an arrangement,
    when the projection keeps the key. *)
Lemma sorts_by_fmap {A B : Type} (f : A -> B) (ka : A -> Z) (kb : B -> Z)
    (rows sorted : list A) :
  (forall a, kb (f a) = ka a) ->
  sorts_by ka rows sorted -> sorts_by kb (f <$> rows) (f <$> sorted).
Proof.
  intros Hkey [Hp Ha]. split; [now apply fmap_Permutation|].
  apply (StronglySorted_fmap f (λ a b, ka a <= ka b)); [|exact Ha].
  intros a b. now rewrite !Hkey.
Qed.

Lemma ascending_fmap_inv {A B : Type} (f : A -> B) (ka : A -> Z) (kb : B -> Z)
    (l : list A) :
  (forall a, kb (f a) = ka a) -> ascending kb (f <$> l) -> ascending ka l.
Proof.
  intros Hkey. induction l as [|a l IH]; intros H; [constructor|].
  cbn in H. apply StronglySorted_inv in H as [Hl Ha].
  constructor; [now apply IH|].
  rewrite Forall_fmap in Ha. eapply Forall_impl; [exact Ha|].
  intros b. cbn. now rewrite !Hkey.
Qed.

Lemma sorts_by_fmap_inv {A B : Type} (f : A -> B) (ka : A -> Z) (kb : B -> Z)
    (rows : list A) (sorted' : list B) :
  (forall a, kb (f a) = ka a) ->
  sorts_by kb (f <$> rows) sorted' ->
  exists sorted, sorted' = f <$> sorted /\ sorts_by ka rows sorted.
Proof.
  intros Hkey [Hp Ha]. symmetry in Hp.
  destruct (Permutation_map_inv f rows Hp) as (sorted & -> & Hp').
  exists sorted. split; [reflexivity|]. split; [exact Hp'|].
  now apply (ascending_fmap_inv f ka kb).
Qed.

(** Row by row, the earlier scan succeeds when the store's does, with the
    same origin, destination and cost. *)
Lemma scan_route_forget r :
  match scan_cheapest r, main.scan_route (forget_start r) with
  | Ok q, Ok r' => r' = route_result_of q
  | Err _, Err _ => True
  | _, _ => False
  end.
Proof.
  unfold main.scan_route, scan_cheapest, forget_start. cbn.
  destruct (origin_iata_code r), (dest_iata_code r); cbn; auto.
Qed.

Lemma scan_loop_forget (rows : list CheapestRow) :
  match scan_rows scan_cheapest rows, main.scan_loop main.scan_route (forget_start <$> rows) with
  | Ok qs, Ok rs => rs = route_result_of <$> qs
  | Err _, Err _ => True
  | _, _ => False
  end.
Proof.
  induction rows as [|r rows IH]; [reflexivity|].
  cbn. pose proof (scan_route_forget r) as Hr.
  destruct (scan_cheapest r) as [q|e], (main.scan_route (forget_start r)) as [r'|e'];
    try contradiction; [|exact I].
  destruct (scan_rows scan_cheapest rows) as [qs|e],
           (main.scan_loop main.scan_route (forget_start <$> rows)) as [rs|e'];
    try contradiction; [|exact I].
  cbn. now rewrite Hr, IH.
Qed.

(** X13. The route query of the earlier command answers as
    [CheapestPerRoute] does for the same window, without the countries and
    the date.  Whatever order the database gives to routes of equal cost,
    every list of quotes the store may return lets the earlier query return
    the same routes with the same costs in the same order, and every list the
    earlier query may return comes so from one the store may return.  One
    may fail on a place without a code exactly when the other may.  The two
    functions are such executions. *)
Theorem GetCheapestRouteQuery_agrees (start end_ : Time) w :
  let q := {| main.RouteStartDate := start; main.RouteEndDate := end_ |} in
  (forall qs, CheapestPerRoute_may_return start end_ w (Ok qs) ->
              GetCheapestRoute_may_return q w (Ok (route_result_of <$> qs))) /\
  (forall rs, GetCheapestRoute_may_return q w (Ok rs) ->
              exists qs, CheapestPerRoute_may_return start end_ w (Ok qs) /\
                         rs = route_result_of <$> qs) /\
  ((exists e, CheapestPerRoute_may_return start end_ w (Err e)) <->
   (exists e, GetCheapestRoute_may_return q w (Err e))) /\
  CheapestPerRoute_may_return start end_ w (fst (CheapestPerRoute start end_ w)) /\
  GetCheapestRoute_may_return q w (main.GetCheapestRouteQuery_Exec q w).
Proof.
  cbn zeta. unfold CheapestPerRoute_may_return, GetCheapestRoute_may_return.
  cbn [main.RouteStartDate main.RouteEndDate].
  rewrite getCheapestRoute_rows_forget.
  split; [|split; [|split; [split|split]]].
  - intros qs (sorted & Hs & Hqs). exists (forget_start <$> sorted).
    split; [now apply (sorts_by_fmap forget_start cheapest_cost)|].
    pose proof (scan_loop_forget sorted) as H. rewrite <- Hqs in H.
    destruct (main.scan_loop _ _); [now subst | contradiction].
  - intros rs (sorted' & Hs & Hrs).
    apply (sorts_by_fmap_inv forget_start cheapest_cost) in Hs as (sorted & -> & Hs);
      [|reflexivity].
    pose proof (scan_loop_forget sorted) as H. rewrite <- Hrs in H.
    destruct (scan_rows scan_cheapest sorted) as [qs|e] eqn:Hqs; [|contradiction].
    exists qs. split; [|exact H]. exists sorted. auto.
  - intros (e & sorted & Hs & He).
    pose proof (scan_loop_forget sorted) as H. rewrite <- He in H.
    destruct (main.scan_loop main.scan_route (forget_start <$> sorted)) as [rs|e'] eqn:Hrs;
      [contradiction|].
    exists e', (forget_start <$> sorted).
    split; [now apply (sorts_by_fmap forget_start cheapest_cost) | now rewrite Hrs].
  - intros (e' & sorted' & Hs & He).
    apply (sorts_by_fmap_inv forget_start cheapest_cost) in Hs as (sorted & -> & Hs);
      [|reflexivity].
    pose proof (scan_loop_forget sorted) as H. rewrite <- He in H.
    destruct (scan_rows scan_cheapest sorted) as [qs|e] eqn:Hqs; [contradiction|].
    exists e, sorted. auto.
  - exists (cheapestPerRouteSQL (tables w) start end_).
    split; [apply order_by_sorts_by | reflexivity].
  - exists (main.getCheapestRouteSQL (tables w) start end_).
    split; [|reflexivity].
    rewrite <- getCheapestRoute_rows_forget. apply order_by_sorts_by.
Qed.

Lemma select_cheapest_quote j :
  main.select_cheapest j = cheapest_result_of (select_quote j).
Proof. destruct j as [[[n o] dest] origin]. reflexivity. Qed.

(** X14. The filtered query of the earlier command answers as [ListQuotes]
    does for the same request and the same world, without the origin.
    Whatever order the database gives to rows of equal cost, every answer
    [ListQuotes] may get lets the earlier query get the same destinations,
    costs and dates in the same order, or the same refusal of a negative
    limit or offset; and every answer of the earlier query comes so from one
    of [ListQuotes].  The two functions are such executions. *)
Theorem GetCheapestQuery_agrees (q : ListQuotesRequest) w :
  (forall r, may_return q w r ->
             GetCheapest_may_return (as_GetCheapestQuery q) w (without_origin r)) /\
  (forall r', GetCheapest_may_return (as_GetCheapestQuery q) w r' ->
              exists r, may_return q w r /\ r' = without_origin r) /\
  may_return q w (fst (ListQuotes q w)) /\
  GetCheapest_may_return (as_GetCheapestQuery q) w
    (main.GetCheapestQuery_Exec (as_GetCheapestQuery q) w).
Proof.
  assert (Hrows :
    main.select_cheapest <$>
      quote_sources (tables w)
        (matching_offers (tables w) (NOW w) (StartDate q) (EndDate q)
           (strings_Join (Origins q) ",") (strings_Join (Destinations q) ",")) =
    cheapest_result_of <$> selected_rows q w).
  { unfold selected_rows. rewrite <- list_fmap_compose.
    apply list_fmap_ext. intros i j _. apply select_cheapest_quote. }
  unfold GetCheapest_may_return, may_return.
  cbn [as_GetCheapestQuery main.StartDate main.EndDate main.Origins main.Destinations
       main.Limit main.Offset].
  rewrite Hrows. split; [|split; [|split]].
  - intros r (sorted & Hs & ->). exists (cheapest_result_of <$> sorted).
    split; [now apply (sorts_by_fmap cheapest_result_of QCost)|].
    unfold without_origin. now rewrite limit_offset_fmap.
  - intros r' (sorted' & Hs & ->).
    apply (sorts_by_fmap_inv cheapest_result_of QCost) in Hs as (sorted & -> & Hs);
      [|reflexivity].
    exists (limit_offset (Limit q) (Offset q) sorted).
    split; [now exists sorted|]. unfold without_origin. now rewrite limit_offset_fmap.
  - exists (full_result q w). split; [apply order_by_sorts_by | reflexivity].
  - eexists. split; [|reflexivity]. rewrite <- Hrows. apply order_by_sorts_by.
Qed.

Section EarlierHandler.

Variable json_MarshalIndent : list main.GetCheapestResult -> result string.
Variable time_Parse : string -> string -> result Time.


End EarlierHandler.


End EarlierQueries.

(** ** The airport filter as a set of codes *)

Section FilterMembership.

Implicit Types (l : list string) (t : Tables) (x : OfferRow).

(** X16. For a list of codes without commas that does not join to the empty
    string, the condition of [listQuotesSQL] passes a place exactly when the
    place has a code and the code is in the list; a place without a code
    never passes.  So the origin of every candidate carries one of the codes
    of the list. *)
Theorem code_filter_is_membership l :
  forallb comma_free l = true ->
  strings_Join l "," <> "" ->
  (forall code : option string,
     code_passes (strings_Join l ",") code = true <-> exists c, code = Some c /\ c ∈ l) /\
  (forall t now p1 p2 p4 x,
     candidate t now p1 p2 (strings_Join l ",") p4 x ->
     exists origin c,
       origin ∈ places t /\ place_id origin = origin_id x /\
       iata_code origin = Some c /\ c ∈ l).
Proof.
  intros Hfree Hne.
  assert (Hl : l <> []) by (intros ->; now apply Hne).
  assert (Hsplit : string_to_array (strings_Join l ",") = l).
  { unfold string_to_array.
    destruct (String.eqb_spec (strings_Join l ",") EmptyString) as [He | _];
      [contradiction|].
    now apply split_comma_Join. }
  assert (Hpass : forall code : option string,
            code_passes (strings_Join l ",") code = true <->
            exists c, code = Some c /\ c ∈ l).
  { intros code. unfold code_passes. rewrite Hsplit.
    destruct (String.eqb_spec (strings_Join l ",") EmptyString) as [He | _];
      [contradiction|].
    cbn. destruct code as [c|].
    - rewrite bool_decide_eq_true. split.
      + intros Hc. exists c. auto.
      + intros (c' & [= <-] & Hc). exact Hc.
    - split; [discriminate|]. intros (c & [=] & _). }
  split; [exact Hpass|].
  intros t now p1 p2 p4 x (_ & _ & _ & (origin & Horigin & Ho & H3) & _).
  apply Hpass in H3 as (c & Hc & Hin). exists origin, c. auto.
Qed.

Lemma code_filter_is_membership_witness :
  (forallb comma_free ["LGB"; "SFO"] = true /\ strings_Join ["LGB"; "SFO"] "," <> "") /\
  (code_passes "LGB,SFO" (Some "SFO") = true /\ code_passes "LGB,SFO" (Some "JFK") = false) /\
  (forall code : option string,
     code_passes (strings_Join ["LGB"; "SFO"] ",") code = true <->
     exists c, code = Some c /\ c ∈ ["LGB"; "SFO"]).
Proof.
  assert (Hne : strings_Join ["LGB"; "SFO"] "," <> "") by discriminate.
  split; [split; [reflexivity | exact Hne]|]. split; [split; reflexivity|].
  exact (proj1 (code_filter_is_membership ["LGB"; "SFO"] eq_refl Hne)).
Defined.

End FilterMembership.

(** ** The client and the handler *)

Section ClientAndHandler.

Context {W : Type} {S : transitdb.Store W}.
Variable json_Encode : Offer -> result string.
Variable json_Unmarshal : string -> result Offer.

(** What the handler reads of an offer the client wrote: [Date.MarshalJSON]
    keeps the day only, so this is not the offer itself. *)
Variable wire : Offer -> Offer.

Implicit Types (w : W) (offers : list Offer).







End ClientAndHandler.



(** ** GET /quotes from the parameters to the answer *)

Section ListQuotesAnswer.

Variable json_MarshalIndent : list Quote -> result string.
Variable time_Parse : string -> string -> result Time.

Implicit Types (w : World) (r : Request).




End ListQuotesAnswer.

